(** * PaperClip desktop shell: window host and window frame

    A shallow embedding of the window manager of the PaperClip front end:
    the window list and focused id owned by [App] (components/App.js) and
    the pointer gestures of [WindowFrame] (components/WindowFrame.js).

    React state is modelled by explicit state passing.  Every handler of
    [App] becomes a function on [State]; the [useEffect] that re-focuses a
    window after the list changed becomes [autoFocus], which is run after
    each handler ([step]).  JavaScript numbers are modelled by [Z], [null]
    by [None], and a property that was never written ([maximized] of a
    fresh record) by [None] as well.  The title and the size of a record
    come from a table lookup that can yield an object without those
    properties, so a title may be missing and a size is a [Dim]: a
    number, NaN or undefined. *)

From Stdlib Require Import ZArith Ascii DecimalString.
From stdpp Require Import base decidable strings list.

Local Open Scope Z_scope.

(** ** Sizes *)

(** What a record holds as width or height: a number, NaN or
    [undefined]. *)
Inductive Dim : Type := Num (n : Z) | NaN | Undefined.

(** [v + d] for a number [d]: NaN when [v] is NaN or undefined. *)
Definition Dim_add (v : Dim) (d : Z) : Dim :=
  match v with
  | Num n => Num (n + d)
  | NaN | Undefined => NaN
  end.

(** [Math.max(a, v)] for a number [a]: NaN when [v] is NaN or undefined. *)
Definition Dim_max (a : Z) (v : Dim) : Dim :=
  match v with
  | Num n => Num (Z.max a n)
  | NaN | Undefined => NaN
  end.

(** [v >= a] for a number [a]: false when [v] is NaN or undefined. *)
Definition at_least (a : Z) (v : Dim) : Prop :=
  match v with
  | Num n => a ≤ n
  | NaN | Undefined => False
  end.

(** ** Window records *)

Module Win.

Record t : Type := mk {
  id : string;
  type : string;
  title : option string;     (* [None]: undefined *)
  width : Dim;
  height : Dim;
  x : Z;
  y : Z;
  minimized : bool;
  maximized : option bool;   (* [None]: the property is absent *)
  zIndex : Z
}.

(** Object spreads [{ ...win, field: v }]. *)

Definition with_zIndex (z : Z) (w : t) : t :=
  mk (id w) (type w) (title w) (width w) (height w) (x w) (y w)
     (minimized w) (maximized w) z.

Definition with_minimized (b : bool) (w : t) : t :=
  mk (id w) (type w) (title w) (width w) (height w) (x w) (y w)
     b (maximized w) (zIndex w).

Definition with_maximized (b : bool) (w : t) : t :=
  mk (id w) (type w) (title w) (width w) (height w) (x w) (y w)
     (minimized w) (Some b) (zIndex w).

Definition with_pos (px py : Z) (w : t) : t :=
  mk (id w) (type w) (title w) (width w) (height w) px py
     (minimized w) (maximized w) (zIndex w).

Definition with_size (sw sh : Dim) (w : t) : t :=
  mk (id w) (type w) (title w) sw sh (x w) (y w)
     (minimized w) (maximized w) (zIndex w).

End Win.

(** Truthiness of a possibly absent boolean property: [undefined] is falsy. *)
Definition truthy (o : option bool) : bool := default false o.

(** [n || 0] on a number. *)
Definition or0 (n : Z) : Z := if bool_decide (n = 0) then 0 else n.

(** [Math.max(a, ...rest)]. *)
Definition Math_max (a : Z) (rest : list Z) : Z := foldr Z.max a rest.

(** ** The per-type table *)

Record Defaults : Type := { d_title : string; d_width : Z; d_height : Z }.

(** The own properties of the [DEFAULT_WINDOWS] object. *)
Definition DEFAULT_WINDOWS (ty : string) : option Defaults :=
  if bool_decide (ty = "chat") then Some {| d_title := "Chat v0.98"; d_width := 760; d_height := 520 |}
  else if bool_decide (ty = "research") then Some {| d_title := "Research Lab v0.98"; d_width := 820; d_height := 560 |}
  else if bool_decide (ty = "tools") then Some {| d_title := "Tools v0.98"; d_width := 720; d_height := 520 |}
  else if bool_decide (ty = "stats") then Some {| d_title := "System Monitor v0.98"; d_width := 640; d_height := 480 |}
  else if bool_decide (ty = "projects") then Some {| d_title := "Projects v0.98"; d_width := 520; d_height := 420 |}
  else if bool_decide (ty = "help") then Some {| d_title := "Help v0.98"; d_width := 640; d_height := 480 |}
  else if bool_decide (ty = "domain_discovery") then Some {| d_title := "Domain Discovery"; d_width := 800; d_height := 550 |}
  else if bool_decide (ty = "paper_summarizer") then Some {| d_title := "Paper Summarizer"; d_width := 800; d_height := 550 |}
  else if bool_decide (ty = "professor_finder") then Some {| d_title := "Professor Finder"; d_width := 800; d_height := 550 |}
  else if bool_decide (ty = "dataset_hub") then Some {| d_title := "Dataset Hub"; d_width := 800; d_height := 550 |}
  else if bool_decide (ty = "pretrained_models") then Some {| d_title := "Model Architect"; d_width := 800; d_height := 550 |}
  else if bool_decide (ty = "generate_code") then Some {| d_title := "Research Engineer"; d_width := 800; d_height := 550 |}
  else None.

Definition fallback_defaults : Defaults :=
  {| d_title := "Window"; d_width := 680; d_height := 480 |}.

(** The names the table object inherits from [Object.prototype]. *)
Definition Object_prototype_keys : list string :=
  ["constructor"; "__defineGetter__"; "__defineSetter__"; "hasOwnProperty";
   "__lookupGetter__"; "__lookupSetter__"; "isPrototypeOf";
   "propertyIsEnumerable"; "toString"; "valueOf"; "__proto__"; "toLocaleString"].

(** What the property access [DEFAULT_WINDOWS[type]] can yield besides
    [undefined]: an entry of the table, or a function or object inherited
    from [Object.prototype], which is truthy and has no [title], [width]
    or [height]. *)
Inductive TableValue : Type := Entry (d : Defaults) | Inherited.

(** [DEFAULT_WINDOWS[type]] along the prototype chain; [None] is
    [undefined]. *)
Definition DEFAULT_WINDOWS_get (ty : string) : option TableValue :=
  match DEFAULT_WINDOWS ty with
  | Some d => Some (Entry d)
  | None => if bool_decide (ty ∈ Object_prototype_keys) then Some Inherited else None
  end.

(** [defaults.title], [defaults.width], [defaults.height]. *)
Definition tv_title (v : TableValue) : option string :=
  match v with Entry d => Some (d_title d) | Inherited => None end.

Definition tv_width (v : TableValue) : Dim :=
  match v with Entry d => Num (d_width d) | Inherited => Undefined end.

Definition tv_height (v : TableValue) : Dim :=
  match v with Entry d => Num (d_height d) | Inherited => Undefined end.

(** ** Host state and handlers (App.js) *)

Record State : Type := {
  windows : list Win.t;
  activeWindowId : option string
}.

Definition init : State := {| windows := []; activeWindowId := None |}.

Definition setWindows (f : list Win.t → list Win.t) (s : State) : State :=
  {| windows := f (windows s); activeWindowId := activeWindowId s |}.

Definition setActiveWindowId (f : option string → option string) (s : State) : State :=
  {| windows := windows s; activeWindowId := f (activeWindowId s) |}.

Definition maxZ (prev : list Win.t) : Z :=
  Math_max 0 (map (λ win, or0 (Win.zIndex win)) prev).

Definition bringToFront (id : string) (s : State) : State :=
  setActiveWindowId (λ _, Some id)
    (setWindows (λ prev,
       map (λ win, if bool_decide (Win.id win = id)
                   then Win.with_zIndex (maxZ prev + 1) win else win) prev) s).

(** [`${type}-${Date.now()}`]; the clock reading is an argument. *)
Definition newId (ty : string) (now : N) : string :=
  ty +:+ "-" +:+ NilZero.string_of_uint (N.to_uint now).

Definition openWindow (ty : string) (now : N) (s : State) : State :=
  setWindows (λ prev,
    let existing := List.find (λ win, bool_decide (Win.type win = ty)) prev in
    let mz := maxZ prev in
    match existing with
    | Some _ =>
        map (λ win, if bool_decide (Win.type win = ty)
                    then Win.with_zIndex (mz + 1) (Win.with_minimized false win)
                    else win) prev
    | None =>
        let defaults := default (Entry fallback_defaults) (DEFAULT_WINDOWS_get ty) in
        let offset := 30 * Z.of_nat (length prev) in
        prev ++ [Win.mk (newId ty now) ty (tv_title defaults)
                        (tv_width defaults) (tv_height defaults)
                        (180 + offset) (80 + offset) false None (mz + 1)]
    end) s.

Definition closeWindow (id : string) (s : State) : State :=
  setActiveWindowId (λ prev, if bool_decide (prev = Some id) then None else prev)
    (setWindows (λ prev, filter (λ win, Win.id win ≠ id) prev) s).

Definition minimizeWindow (id : string) (s : State) : State :=
  setActiveWindowId (λ prev, if bool_decide (prev = Some id) then None else prev)
    (setWindows (λ prev,
       map (λ win, if bool_decide (Win.id win = id)
                   then Win.with_minimized true win else win) prev) s).

Definition maximizeWindow (id : string) (s : State) : State :=
  bringToFront id
    (setWindows (λ prev,
       map (λ win, if bool_decide (Win.id win = id)
                   then Win.with_minimized false
                          (Win.with_maximized (negb (truthy (Win.maximized win))) win)
                   else win) prev) s).

Definition restoreWindow (id : string) (s : State) : State :=
  bringToFront id
    (setWindows (λ prev,
       map (λ win, if bool_decide (Win.id win = id)
                   then Win.with_minimized false win else win) prev) s).

Record Pos : Type := { pos_x : Z; pos_y : Z }.
Record Size : Type := { size_width : Dim; size_height : Dim }.

Definition moveWindow (id : string) (pos : Pos) (s : State) : State :=
  setWindows (λ prev,
    map (λ win, if bool_decide (Win.id win = id)
                then Win.with_pos (pos_x pos) (pos_y pos) win else win) prev) s.

Definition resizeWindow (id : string) (size : Size) (s : State) : State :=
  setWindows (λ prev,
    map (λ win, if bool_decide (Win.id win = id)
                then Win.with_size (size_width size) (size_height size) win
                else win) prev) s.

(** The effect on [[windows, activeWindowId]]: when the list is not empty
    and no record carries the focused id, focus the last record. *)
Definition autoFocus (s : State) : State :=
  if bool_decide (0 < Z.of_nat (length (windows s)))
     && negb (existsb (λ w, bool_decide (Some (Win.id w) = activeWindowId s)) (windows s))
  then match last (windows s) with
       | Some newestWindow => setActiveWindowId (λ _, Some (Win.id newestWindow)) s
       | None => s
       end
  else s.

(** ** Host operations as a transition system *)

Inductive Op : Type :=
| Open (ty : string) (now : N)
| Close (id : string)
| Focus (id : string)
| Minimize (id : string)
| Maximize (id : string)
| Restore (id : string)
| Move (id : string) (pos : Pos)
| Resize (id : string) (size : Size).

(** The handler alone, before effects run. *)
Definition handler (o : Op) : State → State :=
  match o with
  | Open ty now => openWindow ty now
  | Close id => closeWindow id
  | Focus id => bringToFront id
  | Minimize id => minimizeWindow id
  | Maximize id => maximizeWindow id
  | Restore id => restoreWindow id
  | Move id pos => moveWindow id pos
  | Resize id size => resizeWindow id size
  end.

(** One event: the handler, then the effect. *)
Definition step (o : Op) (s : State) : State := autoFocus (handler o s).

Definition run (ops : list Op) (s : State) : State :=
  foldl (λ acc o, step o acc) s ops.

(** The id an operation is aimed at ([Open] names a type instead). *)
Definition target (o : Op) : option string :=
  match o with
  | Open _ _ => None
  | Close id | Focus id | Minimize id | Maximize id | Restore id
  | Move id _ | Resize id _ => Some id
  end.

(** The taskbar button of [win]. *)
Definition taskbarClick (win : Win.t) (s : State) : State :=
  if Win.minimized win then restoreWindow (Win.id win) s
  else if bool_decide (activeWindowId s = Some (Win.id win))
       then minimizeWindow (Win.id win) s
       else bringToFront (Win.id win) s.

(** ** Window frame (WindowFrame.js) *)

Record MouseEvent : Type := { clientX : Z; clientY : Z }.

(** The part of [getBoundingClientRect()] that [startDrag] reads. *)
Record Rect : Type := { rect_left : Z; rect_top : Z }.

Record ResizeStart : Type := { rs_x : Z; rs_y : Z; rs_w : Dim; rs_h : Dim }.

Record Frame : Type := {
  dragging : bool;
  resizing : bool;
  dragOffset : Pos;
  resizeStart : ResizeStart
}.

Definition frame0 : Frame :=
  {| dragging := false; resizing := false;
     dragOffset := {| pos_x := 0; pos_y := 0 |};
     resizeStart := {| rs_x := 0; rs_y := 0; rs_w := Num 0; rs_h := Num 0 |} |}.

(** The props of a frame are the fields of its record, [win]. *)

Definition handleMove (win : Win.t) (f : Frame) (event : MouseEvent) (s : State) : State :=
  let s1 :=
    if dragging f && negb (truthy (Win.maximized win))
    then moveWindow (Win.id win)
           {| pos_x := clientX event - pos_x (dragOffset f);
              pos_y := clientY event - pos_y (dragOffset f) |} s
    else s in
  if resizing f && negb (truthy (Win.maximized win))
  then
    let dx := clientX event - rs_x (resizeStart f) in
    let dy := clientY event - rs_y (resizeStart f) in
    resizeWindow (Win.id win)
      {| size_width := Dim_max 420 (Dim_add (rs_w (resizeStart f)) dx);
         size_height := Dim_max 280 (Dim_add (rs_h (resizeStart f)) dy) |} s1
  else s1.

Definition handleUp (f : Frame) : Frame :=
  {| dragging := false; resizing := false;
     dragOffset := dragOffset f; resizeStart := resizeStart f |}.

(** [mousemove] on the window object: the listener is attached only
    while a gesture is active. *)
Definition onMouseMove (win : Win.t) (f : Frame) (event : MouseEvent) (s : State) : State :=
  if dragging f || resizing f then autoFocus (handleMove win f event s) else s.

Definition startDrag (win : Win.t) (rect : Rect) (event : MouseEvent)
    (fs : Frame * State) : Frame * State :=
  if Win.minimized win || truthy (Win.maximized win) then fs
  else
    ({| dragging := true; resizing := resizing fs.1;
        dragOffset := {| pos_x := clientX event - rect_left rect;
                         pos_y := clientY event - rect_top rect |};
        resizeStart := resizeStart fs.1 |},
     bringToFront (Win.id win) fs.2).

Definition startResize (win : Win.t) (event : MouseEvent)
    (fs : Frame * State) : Frame * State :=
  if truthy (Win.maximized win) then fs
  else
    ({| dragging := dragging fs.1; resizing := true;
        dragOffset := dragOffset fs.1;
        resizeStart := {| rs_x := clientX event; rs_y := clientY event;
                          rs_w := Win.width win; rs_h := Win.height win |} |},
     bringToFront (Win.id win) fs.2).

(** The record a frame with key [id] is rendered from. *)
Definition props (id : string) (s : State) : option Win.t :=
  List.find (λ win, bool_decide (Win.id win = id)) (windows s).

(** ** Observations *)

(** The ids and the types of the list, in list order. *)
Definition ids (s : State) : list string := map Win.id (windows s).
Definition types (s : State) : list string := map Win.type (windows s).

(** A string without the separator ["-"]. *)
Fixpoint dashless (t : string) : Prop :=
  match t with
  | EmptyString => True
  | String c t' => c ≠ "-"%char ∧ dashless t'
  end.

(** ** Sample states *)

Definition one_window : State := run [Open "chat" 1%N] init.

Definition two_windows : State :=
  run [Open "chat" 1%N; Open "research" 2%N] init.

Definition maximized_window : State :=
  run [Open "chat" 1%N; Maximize "chat-1"] init.

Definition minimized_window : State :=
  run [Open "chat" 1%N; Open "research" 2%N; Minimize "research-2"] init.

(** A window opened under a name that the table object inherits. *)
Definition inherited_window : State := run [Open "constructor" 1%N] init.

Definition chat_window : Win.t :=
  Win.mk "chat-1" "chat" (Some "Chat v0.98") (Num 760) (Num 520) 180 80 false None 1.

Definition maximized_chat : Win.t :=
  Win.mk "chat-1" "chat" (Some "Chat v0.98") (Num 760) (Num 520) 180 80 false (Some true) 2.

Definition minimized_research : Win.t :=
  Win.mk "research-2" "research" (Some "Research Lab v0.98") (Num 820) (Num 560)
         210 110 true None 2.

(** A frame in the middle of a drag and of a resize. *)
Definition busy_frame : Frame :=
  {| dragging := true; resizing := true;
     dragOffset := {| pos_x := 20; pos_y := 15 |};
     resizeStart := {| rs_x := 900; rs_y := 600; rs_w := Num 760; rs_h := Num 520 |} |}.

Definition resizing_frame : Frame :=
  {| dragging := false; resizing := true;
     dragOffset := {| pos_x := 0; pos_y := 0 |};
     resizeStart := {| rs_x := 900; rs_y := 600; rs_w := Num 760; rs_h := Num 520 |} |}.

(** ** The rest of App.js: panels, the signed-in user, logout *)

(** The user object kept in [user]; both fields may be missing. *)
Record User : Type := { user_name : option string; user_email : option string }.

(** What [renderWindowContent] returns, with the props it passes. *)
Inductive Panel : Type :=
| ChatInterface (isAuthenticated : bool)
| ResearchPanel (isAuthenticated : bool)
| ToolsPanel
| DynamicToolInterface (toolId : string) (isAuthenticated : bool)
| StatisticsPanel
| WorkspaceManager (isAuthenticated : bool)
| HelpTab.

(** [!!user]. *)
Definition isAuthenticated (user : option User) : bool :=
  match user with Some _ => true | None => false end.

(** The [switch] of [renderWindowContent]; [None] is [null]. *)
Definition renderWindowContent (user : option User) (ty : string) : option Panel :=
  if bool_decide (ty = "chat") then Some (ChatInterface (isAuthenticated user))
  else if bool_decide (ty = "research") then Some (ResearchPanel (isAuthenticated user))
  else if bool_decide (ty = "tools") then Some ToolsPanel
  else if bool_decide (ty = "domain_discovery") || bool_decide (ty = "paper_summarizer")
          || bool_decide (ty = "professor_finder") || bool_decide (ty = "dataset_hub")
          || bool_decide (ty = "pretrained_models") || bool_decide (ty = "generate_code")
       then Some (DynamicToolInterface ty (isAuthenticated user))
  else if bool_decide (ty = "stats") then Some StatisticsPanel
  else if bool_decide (ty = "projects") then Some (WorkspaceManager (isAuthenticated user))
  else if bool_decide (ty = "help") then Some HelpTab
  else None.

(** [a || b] on possibly missing strings: the empty string is falsy. *)
Definition str_or (a b : option string) : option string :=
  match a with
  | Some t => if bool_decide (t = "") then b else Some t
  | None => b
  end.

(** [user?.name || user?.email || 'User'], the label of the taskbar. *)
Definition userLabel (user : option User) : option string :=
  str_or (str_or (user ≫= user_name) (user ≫= user_email)) (Some "User").

(** The state of [App] that logout touches, next to the window host:
    the signed-in user, the token kept in local storage under
    [paperclip_token], and the Authorization header of the API client. *)
Record App : Type := {
  user : option User;
  isLoading : bool;
  host : State;
  paperclip_token : option string;
  Authorization : option string
}.

(** [apiService.setAuthToken(token)]. *)
Definition setAuthToken (token : option string) (a : App) : App :=
  {| user := user a; isLoading := isLoading a; host := host a;
     paperclip_token := paperclip_token a;
     Authorization :=
       match str_or token None with
       | Some t => Some ("Bearer " +:+ t)
       | None => None
       end |}.

Definition handleLogout (a : App) : App :=
  let a1 := {| user := user a; isLoading := isLoading a; host := host a;
               paperclip_token := None; Authorization := Authorization a |} in
  let a2 := setAuthToken None a1 in
  {| user := None; isLoading := isLoading a2;
     host := setWindows (λ _, []) (host a2);
     paperclip_token := paperclip_token a2; Authorization := Authorization a2 |}.

(** Which of the three screens [App] returns. *)
Inductive Screen : Type := LoginScreen | BootScreen | DesktopShell.

Definition screen (a : App) : Screen :=
  if negb (isAuthenticated (user a)) && negb (isLoading a) then LoginScreen
  else if isLoading a then BootScreen
  else DesktopShell.

(** ** The rest of WindowFrame.js: what a frame renders and how a press
    reaches its handlers *)

(** The style of the frame's root element. *)
Inductive Length : Type := Px (n : Dim) | Full | FullMinusTaskbar.

Record FrameStyle : Type := {
  st_translate : option (Z * Z);     (* [None]: transform 'none' *)
  st_width : Length;
  st_height : Length;
  st_zIndex : Z;
  st_class_maximized : bool;
  st_glyph_restore : bool;           (* the maximize button shows the restore glyph *)
  st_resizer : bool                  (* the resize handle is rendered *)
}.

(** The element a frame returns; [None] is [null]. *)
Definition renderFrame (win : Win.t) : option FrameStyle :=
  if Win.minimized win then None
  else Some
    {| st_translate := if truthy (Win.maximized win) then None
                       else Some (Win.x win, Win.y win);
       st_width := if truthy (Win.maximized win) then Full else Px (Win.width win);
       st_height := if truthy (Win.maximized win) then FullMinusTaskbar
                    else Px (Win.height win);
       st_zIndex := Win.zIndex win;
       st_class_maximized := truthy (Win.maximized win);
       st_glyph_restore := truthy (Win.maximized win);
       st_resizer := negb (truthy (Win.maximized win)) |}.

(** A press on the title bar: [startDrag], then the event bubbles to the
    frame's root, whose handler is [onFocus(id)]. *)
Definition titlebarMouseDown (win : Win.t) (rect : Rect) (event : MouseEvent)
    (fs : Frame * State) : Frame * State :=
  let fs1 := startDrag win rect event fs in
  (fs1.1, bringToFront (Win.id win) fs1.2).

(** A press on the resize handle: [startResize] stops the propagation,
    so the root's handler is not run. *)
Definition resizerMouseDown (win : Win.t) (event : MouseEvent)
    (fs : Frame * State) : Frame * State :=
  startResize win event fs.

(** A signed-in session with the chat and the research window open. *)
Definition signed_in : App :=
  {| user := Some {| user_name := Some "Ada"; user_email := Some "ada@example.org" |};
     isLoading := false;
     host := two_windows;
     paperclip_token := Some "token";
     Authorization := Some "Bearer token" |}.

(** ** States reached from the empty desktop *)

Definition reachable (s : State) : Prop := ∃ ops : list Op, s = run ops init.

(** What every state reached from the empty desktop satisfies: one
    record per type, ids of the form [newId], distinct positive zIndexes. *)
Definition well_formed (s : State) : Prop :=
  NoDup (types s) ∧
  (∀ w, w ∈ windows s → ∃ t, Win.id w = newId (Win.type w) t) ∧
  NoDup (map Win.zIndex (windows s)) ∧
  (∀ w, w ∈ windows s → 1 ≤ Win.zIndex w).

(** * Properties *)

#[global] Instance Dim_eq_dec : EqDecision Dim.
Proof. solve_decision. Defined.

#[global] Instance Win_eq_dec : EqDecision Win.t.
Proof. solve_decision. Defined.

(** ** Basic facts about the handlers *)

Lemma or0_id n : or0 n = n.
Proof. unfold or0. case_bool_decide; congruence. Qed.

Lemma Math_max_ge a rest : a ≤ Math_max a rest.
Proof. induction rest as [|z rest IH]; simpl; lia. Qed.

Lemma Math_max_elem a rest z : z ∈ rest → z ≤ Math_max a rest.
Proof.
  induction 1 as [z rest|z z' rest _ IH]; simpl; [lia|].
  etrans; [exact IH|lia].
Qed.

Lemma maxZ_nonneg prev : 0 ≤ maxZ prev.
Proof. apply Math_max_ge. Qed.

Lemma maxZ_ge prev w : w ∈ prev → Win.zIndex w ≤ maxZ prev.
Proof.
  intros Hw. unfold maxZ. apply Math_max_elem.
  rewrite <- (or0_id (Win.zIndex w)).
  by apply (list_elem_of_fmap_2 (λ win, or0 (Win.zIndex win))).
Qed.

Lemma Math_max_attained a rest : Math_max a rest = a ∨ Math_max a rest ∈ rest.
Proof.
  induction rest as [|z rest IH]; simpl; [by left|].
  destruct (Z.max_spec z (Math_max a rest)) as [[_ ->]|[_ ->]].
  - destruct IH as [->|IH]; [by left|]. right. by right.
  - right. left.
Qed.

(** [max(0, zIndexes) + 1] without the helper: it is above every zIndex
    of the list, and it is 1 or the successor of one of them. *)
Lemma maxZ_succ_spec prev :
  (∀ u, u ∈ prev → Win.zIndex u < maxZ prev + 1) ∧
  (maxZ prev + 1 = 1 ∨ ∃ u, u ∈ prev ∧ maxZ prev + 1 = Win.zIndex u + 1).
Proof.
  split.
  - intros u Hu. pose proof (maxZ_ge _ _ Hu). lia.
  - unfold maxZ. destruct (Math_max_attained 0 (map (λ win, or0 (Win.zIndex win)) prev))
      as [->|Hin]; [by left|].
    apply list_elem_of_fmap in Hin as (u & Hu & Hin). rewrite or0_id in Hu.
    right. exists u. split; [done|]. by rewrite Hu.
Qed.

Lemma windows_autoFocus s : windows (autoFocus s) = windows s.
Proof.
  unfold autoFocus.
  destruct (_ && _); [|done]. by destruct (last (windows s)).
Qed.

Lemma windows_step o s : windows (step o s) = windows (handler o s).
Proof. apply windows_autoFocus. Qed.

(** [windows.some(w => w.id === activeWindowId)] as a proposition. *)
Lemma some_active_spec (l : list Win.t) (a : option string) :
  existsb (λ w, bool_decide (Some (Win.id w) = a)) l = true
  ↔ ∃ i, a = Some i ∧ i ∈ map Win.id l.
Proof.
  rewrite existsb_exists. split.
  - intros (w & Hin & Hw). apply bool_decide_eq_true in Hw.
    exists (Win.id w). split; [done|].
    apply (list_elem_of_fmap_2 Win.id). by apply list_elem_of_In.
  - intros (i & -> & Hi). apply list_elem_of_fmap in Hi as (w & -> & Hw).
    exists w. split; [by apply list_elem_of_In|]. by apply bool_decide_eq_true.
Qed.

(** The effect leaves a state alone when the list is empty or the
    focused id is in it. *)
Lemma autoFocus_settled s :
  windows s = [] ∨ (∃ i, activeWindowId s = Some i ∧ i ∈ map Win.id (windows s)) →
  autoFocus s = s.
Proof.
  intros [Hnil|Hin]; unfold autoFocus.
  - by rewrite Hnil.
  - apply some_active_spec in Hin. rewrite Hin. by rewrite andb_false_r.
Qed.

(** Otherwise it focuses the last record. *)
Lemma autoFocus_fires s w :
  last (windows s) = Some w →
  (∀ i, activeWindowId s = Some i → i ∉ map Win.id (windows s)) →
  autoFocus s = setActiveWindowId (λ _, Some (Win.id w)) s.
Proof.
  intros Hlast Habs. unfold autoFocus. rewrite Hlast.
  destruct (existsb _ _) eqn:He.
  - apply some_active_spec in He as (i & Hi & Hin). by destruct (Habs i Hi).
  - rewrite andb_true_r. case_bool_decide as Hlen; [done|].
    destruct (windows s); [done|]. simpl in Hlen. lia.
Qed.

(** One run of the effect is enough: its result is settled. *)
Lemma autoFocus_idempotent s : autoFocus (autoFocus s) = autoFocus s.
Proof.
  destruct (existsb (λ w, bool_decide (Some (Win.id w) = activeWindowId s)) (windows s)) eqn:He.
  - apply some_active_spec in He.
    rewrite (autoFocus_settled s); [|by right]. apply autoFocus_settled. by right.
  - destruct (last (windows s)) as [w|] eqn:Hlast.
    + rewrite (autoFocus_fires s w Hlast).
      * apply autoFocus_settled. right. exists (Win.id w). split; [done|].
        simpl. apply (list_elem_of_fmap_2 Win.id). by apply last_Some_elem_of.
      * intros i Hi Hin.
        assert (existsb (λ w, bool_decide (Some (Win.id w) = activeWindowId s))
                  (windows s) = true) as Ht by (apply some_active_spec; eauto).
        congruence.
    + apply last_None in Hlast.
      rewrite (autoFocus_settled s); [|by left]. apply autoFocus_settled. by left.
Qed.

(** ** Ids under the handlers *)

Lemma ids_map_if (P : Win.t → Prop) `{!∀ w, Decision (P w)} (g : Win.t → Win.t) (l : list Win.t) :
  (∀ w, Win.id (g w) = Win.id w) →
  map Win.id (map (λ win, if bool_decide (P win) then g win else win) l) = map Win.id l.
Proof.
  intros Hg. rewrite map_map. apply map_ext. intros w.
  case_bool_decide; [apply Hg|done].
Qed.

Lemma ids_bringToFront i s : ids (bringToFront i s) = ids s.
Proof. unfold ids; simpl. by apply ids_map_if. Qed.

Lemma ids_openWindow_incl ty now s a : a ∈ ids s → a ∈ ids (openWindow ty now s).
Proof.
  unfold ids; simpl. destruct (find _ _).
  - by rewrite ids_map_if.
  - rewrite map_app. intros H. apply elem_of_app. by left.
Qed.

Lemma ids_closeWindow i s a : a ∈ ids (closeWindow i s) ↔ a ∈ ids s ∧ a ≠ i.
Proof.
  unfold ids; simpl. split.
  - intros (w & -> & Hw)%list_elem_of_fmap.
    apply list_elem_of_filter in Hw as [Hne Hw].
    split; [|done]. by apply (list_elem_of_fmap_2 Win.id).
  - intros [(w & -> & Hw)%list_elem_of_fmap Hne].
    apply (list_elem_of_fmap_2 Win.id). by apply list_elem_of_filter.
Qed.

(** Only [Close] removes an id from the list. *)
Lemma ids_handler_removed o s a :
  a ∈ ids s → a ∉ ids (handler o s) → o = Close a.
Proof.
  intros Hin Hout. destruct o as [ty now|i|i|i|i|i|i pos|i size]; simpl in Hout.
  - destruct Hout. by apply ids_openWindow_incl.
  - destruct (decide (a = i)) as [->|Hne]; [done|].
    destruct Hout. by apply ids_closeWindow.
  - by rewrite ids_bringToFront in Hout.
  - unfold ids in Hout; simpl in Hout. by rewrite ids_map_if in Hout.
  - unfold maximizeWindow in Hout. rewrite ids_bringToFront in Hout.
    unfold ids in Hout; simpl in Hout. by rewrite ids_map_if in Hout.
  - unfold restoreWindow in Hout. rewrite ids_bringToFront in Hout.
    unfold ids in Hout; simpl in Hout. by rewrite ids_map_if in Hout.
  - unfold ids in Hout; simpl in Hout. by rewrite ids_map_if in Hout.
  - unfold ids in Hout; simpl in Hout. by rewrite ids_map_if in Hout.
Qed.

(** ** Focus and stacking order *)

(** C7. focus(id) keeps the length of the list and every record in its
    place.  A record that carries the id is kept with all its fields but
    the zIndex, which becomes one more than the greatest zIndex before
    the call: it is above every zIndex of the old list, it is 1 or the
    successor of one of them, and no record of the new list is above it.
    Every other record is left as it is. *)
Theorem C7_focus_raises_to_max (s : State) (i : string) (k : nat) (w : Win.t) :
  windows s !! k = Some w →
  length (windows (step (Focus i) s)) = length (windows s) ∧
  ∃ w', windows (step (Focus i) s) !! k = Some w' ∧
    (Win.id w ≠ i → w' = w) ∧
    (Win.id w = i →
       (Win.id w', Win.type w', Win.title w', Win.width w', Win.height w')
         = (Win.id w, Win.type w, Win.title w, Win.width w, Win.height w) ∧
       (Win.x w', Win.y w', Win.minimized w', Win.maximized w')
         = (Win.x w, Win.y w, Win.minimized w, Win.maximized w) ∧
       Win.zIndex w' = maxZ (windows s) + 1 ∧
       (∀ u, u ∈ windows s → Win.zIndex u < Win.zIndex w') ∧
       (Win.zIndex w' = 1 ∨ ∃ u, u ∈ windows s ∧ Win.zIndex w' = Win.zIndex u + 1) ∧
       (∀ v, v ∈ windows (step (Focus i) s) → Win.zIndex v ≤ Win.zIndex w')).
Proof.
  rewrite windows_step. simpl.
  set (f := λ win : Win.t, if bool_decide (Win.id win = i)
                           then Win.with_zIndex (maxZ (windows s) + 1) win else win).
  change (map f (windows s)) with (f <$> windows s).
  intros Hk. split; [by rewrite length_fmap|].
  exists (f w). split; [by rewrite list_lookup_fmap, Hk|].
  destruct (maxZ_succ_spec (windows s)) as [Habove Hsucc].
  split.
  - intros Hne. unfold f. by rewrite bool_decide_eq_false_2.
  - intros Hid.
    assert (f w = Win.with_zIndex (maxZ (windows s) + 1) w) as ->
      by (unfold f; by rewrite bool_decide_eq_true_2).
    cbn [Win.with_zIndex Win.id Win.type Win.title Win.width Win.height Win.x Win.y
         Win.minimized Win.maximized Win.zIndex].
    split; [done|]. split; [done|]. split; [done|].
    split; [exact Habove|]. split; [exact Hsucc|].
    intros v (u & -> & Hu)%list_elem_of_fmap.
    unfold f. case_bool_decide; simpl; [lia|].
    pose proof (maxZ_ge _ _ Hu). lia.
Qed.

Lemma C7_focus_raises_to_max_witness :
  length (windows (step (Focus "chat-1") two_windows)) = 2%nat ∧
  ∃ w', windows (step (Focus "chat-1") two_windows) !! 0%nat = Some w' ∧
        Win.zIndex w' = 3 ∧
        (∀ u, u ∈ windows two_windows → Win.zIndex u < Win.zIndex w') ∧
        ∀ v, v ∈ windows (step (Focus "chat-1") two_windows) → Win.zIndex v ≤ Win.zIndex w'.
Proof.
  destruct (C7_focus_raises_to_max two_windows "chat-1" 0 chat_window eq_refl)
    as (Hlen & w' & Hw' & _ & Hraised).
  destruct (Hraised eq_refl) as (_ & _ & Hz & Habove & _ & Htop).
  split; [exact Hlen|]. exists w'. split; [exact Hw'|].
  split; [exact Hz|]. split; [exact Habove|exact Htop].
Defined.

(** ** Ids of fresh records *)

Lemma dashless_uint d : dashless (NilEmpty.string_of_uint d).
Proof. induction d; simpl; auto. Qed.

Lemma dashless_clock now : dashless (NilZero.string_of_uint (N.to_uint now)).
Proof.
  unfold NilZero.string_of_uint.
  destruct (N.to_uint now); try apply (dashless_uint (Decimal.D0 _)) || simpl; auto;
    apply dashless_uint.
Qed.

Lemma dashless_no_dash a b : dashless (a +:+ "-" +:+ b) → False.
Proof. induction a as [|c a IH]; simpl; intros [H1 H2]; auto. Qed.

Lemma dash_split a b d1 d2 :
  dashless d1 → dashless d2 → a +:+ "-" +:+ d1 = b +:+ "-" +:+ d2 → a = b.
Proof.
  revert b. induction a as [|c a IH]; intros [|c' b] H1 H2 Heq; simpl in Heq.
  - done.
  - injection Heq as _ Heq. change ("" +:+ d1) with d1 in Heq.
    rewrite Heq in H1. by apply dashless_no_dash in H1.
  - injection Heq as _ Heq. change ("" +:+ d2) with d2 in Heq.
    rewrite <- Heq in H2. by apply dashless_no_dash in H2.
  - injection Heq as -> Heq. f_equal. by apply IH.
Qed.

(** The id of a fresh record determines its type. *)
Lemma newId_type ty ty' now now' : newId ty now = newId ty' now' → ty = ty'.
Proof. apply dash_split; apply dashless_clock. Qed.

(** ** Auto-focus after a removal *)

(** The record [openWindow] builds for a type that is not open yet. *)
Lemma openWindow_fresh ty now s :
  (∀ w, w ∈ windows s → Win.type w ≠ ty) →
  openWindow ty now s =
    setWindows (λ prev,
      prev ++ [Win.mk (newId ty now) ty
                 (tv_title (default (Entry fallback_defaults) (DEFAULT_WINDOWS_get ty)))
                 (tv_width (default (Entry fallback_defaults) (DEFAULT_WINDOWS_get ty)))
                 (tv_height (default (Entry fallback_defaults) (DEFAULT_WINDOWS_get ty)))
                 (180 + 30 * Z.of_nat (length prev))
                 (80 + 30 * Z.of_nat (length prev))
                 false None (maxZ prev + 1)]) s.
Proof.
  intros Hfresh. unfold openWindow, setWindows. f_equal.
  destruct (find _ _) as [w|] eqn:Hfind; [|done].
  apply find_some in Hfind as [Hin Hty].
  apply bool_decide_eq_true in Hty. apply list_elem_of_In in Hin.
  by destruct (Hfresh w Hin).
Qed.

(** C8, as stated, fails at logout: with the chat window focused,
    logout empties the list, so the focused id is no longer in it, the
    list is empty, and the effect leaves the focus on the id of the chat
    window instead of clearing it. *)
Lemma C8_logout_leaves_focus_counterexample :
  activeWindowId (host signed_in) = Some "chat-1" ∧
  ("chat-1" ∈ ids (host signed_in)) ∧
  windows (autoFocus (host (handleLogout signed_in))) = [] ∧
  ("chat-1" ∉ ids (autoFocus (host (handleLogout signed_in)))) ∧
  activeWindowId (autoFocus (host (handleLogout signed_in))) = Some "chat-1" ∧
  activeWindowId (autoFocus (host (handleLogout signed_in))) ≠ None.
Proof.
  split; [reflexivity|].
  split; [apply (bool_decide_unpack _); vm_compute; exact I|].
  split; [reflexivity|].
  split; [apply (bool_decide_unpack _); vm_compute; exact I|].
  split; [reflexivity|discriminate].
Qed.

(** C8, amended. Whenever one of the host operations (open, close,
    focus, minimize, maximize, restore, move, resize) removes the focused
    id from the list, the host ends up focusing the last record of the
    list, or nothing when the list became empty; and open A, open B,
    close A leaves B's window focused.  Logout, which empties the list,
    leaves the focused id as it was: the effect does nothing on an empty
    list. *)
Theorem C8_autofocus_after_removal :
  (∀ (s : State) (o : Op) (a : string),
     activeWindowId s = Some a →
     a ∈ ids s →
     a ∉ ids (step o s) →
     activeWindowId (step o s) = Win.id <$> last (windows (step o s))) ∧
  (∀ (A B : string) (tA tB : N),
     A ≠ B →
     activeWindowId (run [Open A tA; Open B tB; Close (newId A tA)] init)
     = Some (newId B tB)) ∧
  (∀ a : App,
     windows (autoFocus (host (handleLogout a))) = [] ∧
     activeWindowId (autoFocus (host (handleLogout a))) = activeWindowId (host a)).
Proof.
  split; [|split].
  - intros s o a Hact Hin Hout.
    unfold ids in Hout. rewrite windows_step in Hout.
    apply (ids_handler_removed o s a Hin) in Hout as ->.
    unfold step. rewrite windows_autoFocus.
    assert (activeWindowId (handler (Close a) s) = None) as Hnone.
    { simpl. rewrite Hact. by rewrite bool_decide_eq_true_2. }
    destruct (last (windows (handler (Close a) s))) as [w|] eqn:Hlast.
    + rewrite (autoFocus_fires _ w Hlast); [done|].
      intros i Hi. congruence.
    + apply last_None in Hlast. rewrite autoFocus_settled; [done|by left].
  - intros A B tA tB HAB. unfold run; simpl foldl. unfold step at 3.
    simpl handler. rewrite openWindow_fresh; [|by intros w Hw; inversion Hw].
    erewrite autoFocus_fires; [|reflexivity|done].
    unfold step at 2. simpl handler.
    rewrite openWindow_fresh; cycle 1.
    { intros w Hw. apply list_elem_of_singleton in Hw as ->. done. }
    rewrite autoFocus_settled; cycle 1.
    { right. eexists. split; [reflexivity|]. simpl. left. }
    unfold step, handler, closeWindow, setWindows, setActiveWindowId, init.
    cbn [windows activeWindowId app].
    rewrite bool_decide_eq_true_2 by done.
    rewrite filter_cons_False by (simpl; tauto).
    rewrite filter_cons_True, filter_nil.
    { by erewrite autoFocus_fires; [|reflexivity|]. }
    simpl. intros Heq. apply newId_type in Heq. congruence.
  - intros a. by rewrite autoFocus_settled by by left.
Qed.

Lemma C8_autofocus_after_removal_witness :
  activeWindowId (step (Close "chat-1") two_windows) = Some "research-2" ∧
  activeWindowId
    (run [Open "chat" 5%N; Open "research" 9%N; Close (newId "chat" 5%N)] init)
  = Some "research-9".
Proof.
  split.
  - refine (proj1 C8_autofocus_after_removal two_windows (Close "chat-1") "chat-1" _ _ _).
    + reflexivity.
    + apply (bool_decide_unpack _). vm_compute. exact I.
    + apply (bool_decide_unpack _). vm_compute. exact I.
  - refine (proj1 (proj2 C8_autofocus_after_removal) "chat" "research" 5%N 9%N _).
    discriminate.
Defined.

(** ** Minimizing the focused window *)

(** The handler itself clears the focus of the window it minimizes. *)
Lemma minimizeWindow_clears_focus i s : activeWindowId (minimizeWindow i s) ≠ Some i.
Proof. simpl. case_bool_decide; [done|]. congruence. Qed.

(** The effect then hands the focus to the last record, whether or not
    that record is minimized: minimizing the focused window gives the
    focus back to it when it is the last of the list. *)
Lemma minimize_last_refocused s w :
  last (windows s) = Some w →
  activeWindowId s = Some (Win.id w) →
  activeWindowId (step (Minimize (Win.id w)) s) = Some (Win.id w) ∧
  (Win.minimized <$> last (windows (step (Minimize (Win.id w)) s))) = Some true.
Proof.
  intros Hlast Hact. unfold step.
  set (f := λ win : Win.t, if bool_decide (Win.id win = Win.id w)
                           then Win.with_minimized true win else win).
  assert (last (windows (handler (Minimize (Win.id w)) s)) = Some (f w)) as Hl.
  { simpl. change (last (f <$> windows s) = Some (f w)).
    by rewrite fmap_last, Hlast. }
  assert (f w = Win.with_minimized true w) as Hfw.
  { unfold f. by rewrite bool_decide_eq_true_2. }
  rewrite (autoFocus_fires _ _ Hl).
  - unfold setActiveWindowId at 1 2. cbn [activeWindowId windows].
    rewrite Hl, Hfw. done.
  - simpl. rewrite Hact. by rewrite bool_decide_eq_true_2.
Qed.

(** C1. The code at the failing input: open chat, then minimize it.
    [minimizeWindow] clears the focus, the effect then focuses the last
    record again, which is the minimized one. *)
Theorem C1_minimized_window_is_refocused :
  activeWindowId one_window = Some "chat-1" ∧
  activeWindowId (minimizeWindow "chat-1" one_window) = None ∧
  activeWindowId (step (Minimize "chat-1") one_window) = Some "chat-1" ∧
  (Win.minimized <$> props "chat-1" (step (Minimize "chat-1") one_window)) = Some true.
Proof. repeat split; reflexivity. Qed.

(** ** Opening a window *)

(** Opening a type that is not open yet leaves the focus where it was
    when the focused id is in the list. *)
Lemma open_fresh_keeps_focus ty now s a :
  activeWindowId s = Some a → a ∈ ids s →
  activeWindowId (step (Open ty now) s) = Some a.
Proof.
  intros Hact Hin. unfold step. rewrite autoFocus_settled; [done|].
  right. exists a. split; [done|]. by apply ids_openWindow_incl.
Qed.

(** C5. The code at the failing input: open chat, then open research.
    The research record is appended with the defaults of its type, the
    cascading position and the next zIndex, but the focused id is still
    the one of the chat window. *)
Theorem C5_open_does_not_focus_new_record :
  activeWindowId one_window = Some "chat-1" ∧
  windows (step (Open "research" 2%N) one_window) =
    windows one_window ++
    [Win.mk "research-2" "research" (Some "Research Lab v0.98") (Num 820) (Num 560)
            (180 + 30 * 1) (80 + 30 * 1) false None (1 + 1)] ∧
  activeWindowId (step (Open "research" 2%N) one_window) = Some "chat-1".
Proof. repeat split; reflexivity. Qed.

(** ** Move and resize *)

(** What the host's own [moveWindow] and [resizeWindow] do to the
    records carrying the id: they store the request as given. *)
Lemma moveWindow_stores i pos s v :
  v ∈ windows (moveWindow i pos s) → Win.id v = i →
  Win.x v = pos_x pos ∧ Win.y v = pos_y pos.
Proof.
  simpl. intros (u & -> & Hu)%list_elem_of_fmap.
  case_bool_decide; [done|]. intros; congruence.
Qed.

Lemma resizeWindow_stores i size s v :
  v ∈ windows (resizeWindow i size s) → Win.id v = i →
  Win.width v = size_width size ∧ Win.height v = size_height size.
Proof.
  simpl. intros (u & -> & Hu)%list_elem_of_fmap.
  case_bool_decide; [done|]. intros; congruence.
Qed.

(** C2, as stated, fails on the host: maximize the chat window, then
    move(id, {x: 0, y: 0}); the stored position goes from (180, 80) to
    (0, 0). *)
Lemma C2_host_move_on_maximized_counterexample :
  ∃ w w',
    props "chat-1" maximized_window = Some w ∧
    Win.maximized w = Some true ∧
    props "chat-1"
      (step (Move "chat-1" {| pos_x := 0; pos_y := 0 |}) maximized_window) = Some w' ∧
    Win.x w = 180 ∧ Win.y w = 80 ∧ Win.x w' = 0 ∧ Win.y w' = 0 ∧
    ¬ (Win.x w' = Win.x w ∧ Win.y w' = Win.y w).
Proof.
  do 2 eexists. repeat split; try reflexivity.
  simpl. intros [? _]. discriminate.
Qed.

(** C2, amended. While the record a frame is rendered from is maximized,
    the frame calls neither move nor resize: a pointer move leaves the
    host state as it is, and a press on the title bar or on the resize
    handle starts no gesture.  The host's move and resize themselves do
    not look at the flag: they store the request in every record carrying
    the id. *)
Theorem C2_frame_ignores_gestures_while_maximized
    (win : Win.t) (f : Frame) (rect : Rect) (event : MouseEvent) (s : State) :
  truthy (Win.maximized win) = true →
  handleMove win f event s = s ∧
  startDrag win rect event (f, s) = (f, s) ∧
  startResize win event (f, s) = (f, s) ∧
  (∀ pos size v,
     (v ∈ windows (moveWindow (Win.id win) pos s) → Win.id v = Win.id win →
      Win.x v = pos_x pos ∧ Win.y v = pos_y pos) ∧
     (v ∈ windows (resizeWindow (Win.id win) size s) → Win.id v = Win.id win →
      Win.width v = size_width size ∧ Win.height v = size_height size)).
Proof.
  intros Hmax. unfold handleMove, startDrag, startResize. rewrite Hmax.
  rewrite !andb_false_r, orb_true_r. repeat split; intros.
  - by eapply moveWindow_stores.
  - by eapply moveWindow_stores.
  - by eapply resizeWindow_stores.
  - by eapply resizeWindow_stores.
Qed.

Lemma C2_frame_ignores_gestures_while_maximized_witness :
  props "chat-1" maximized_window = Some maximized_chat ∧
  handleMove maximized_chat busy_frame {| clientX := 5; clientY := 7 |} maximized_window
  = maximized_window.
Proof.
  split; [reflexivity|].
  refine (proj1 (C2_frame_ignores_gestures_while_maximized maximized_chat busy_frame
                   {| rect_left := 0; rect_top := 0 |} _ maximized_window _)).
  reflexivity.
Defined.

(** C3, as stated, fails on the host: resize(id, {width: 1, height: 1})
    stores 1 and 1, below 420 and 280. *)
Lemma C3_host_resize_below_floor_counterexample :
  ∃ w',
    props "chat-1"
      (step (Resize "chat-1" {| size_width := Num 1; size_height := Num 1 |}) one_window)
      = Some w' ∧
    Win.width w' = Num 1 ∧ Win.height w' = Num 1 ∧
    ¬ (at_least 420 (Win.width w') ∧ at_least 280 (Win.height w')).
Proof.
  eexists. repeat split; try reflexivity. simpl. lia.
Qed.

(** C3, amended. A pointer move of a frame's resize gesture that
    started from a numeric width and height, on a record that is not
    maximized, asks for max(420, startWidth + dx) and max(280,
    startHeight + dy), whatever the pointer position: after it, every
    record carrying the id is at least 420 wide and 280 high.  (The floor
    is applied by the frame; the host's resize stores what it is given,
    see [resizeWindow_stores].  A gesture that started from an undefined
    size is left out here, see [resize_gesture_without_size].) *)
Theorem C3_resize_gesture_floor
    (win : Win.t) (f : Frame) (event : MouseEvent) (s : State) (v : Win.t)
    (startWidth startHeight : Z) :
  resizing f = true →
  truthy (Win.maximized win) = false →
  rs_w (resizeStart f) = Num startWidth →
  rs_h (resizeStart f) = Num startHeight →
  v ∈ windows (onMouseMove win f event s) →
  Win.id v = Win.id win →
  Win.width v = Num (Z.max 420 (startWidth + (clientX event - rs_x (resizeStart f)))) ∧
  Win.height v = Num (Z.max 280 (startHeight + (clientY event - rs_y (resizeStart f)))) ∧
  at_least 420 (Win.width v) ∧ at_least 280 (Win.height v).
Proof.
  intros Hres Hmax Hw Hh. unfold onMouseMove. rewrite Hres, orb_true_r.
  rewrite windows_autoFocus. unfold handleMove. rewrite Hres, Hmax, Hw, Hh.
  cbn [negb andb]. intros Hv Hid.
  destruct (resizeWindow_stores _ _ _ _ Hv Hid) as [-> ->].
  cbn [size_width size_height Dim_add Dim_max at_least]. repeat split; lia.
Qed.

Lemma C3_resize_gesture_floor_witness :
  props "chat-1" one_window = Some chat_window ∧
  ∃ v, props "chat-1"
         (onMouseMove chat_window resizing_frame {| clientX := 0; clientY := 0 |} one_window)
       = Some v ∧
       Win.width v = Num 420 ∧ Win.height v = Num 280 ∧
       at_least 420 (Win.width v) ∧ at_least 280 (Win.height v).
Proof.
  split; [reflexivity|].
  eexists. split; [reflexivity|].
  refine (C3_resize_gesture_floor chat_window resizing_frame
            {| clientX := 0; clientY := 0 |} one_window _ 760 520 _ _ _ _ _ _).
  - reflexivity.
  - reflexivity.
  - reflexivity.
  - reflexivity.
  - apply (bool_decide_unpack _). vm_compute. exact I.
  - reflexivity.
Defined.

(** A type that is a name inherited from [Object.prototype] gets a record
    without title, width and height: the table lookup yields a function,
    not an entry, and the fallback is not used. *)
Lemma open_inherited_key :
  windows inherited_window =
    [Win.mk "constructor-1" "constructor" None Undefined Undefined 180 80 false None 1].
Proof. reflexivity. Qed.

(** A resize gesture that started from a size that is not a number
    stores NaN, whatever the pointer position. *)
Lemma resize_gesture_without_size
    (win : Win.t) (f : Frame) (event : MouseEvent) (s : State) (v : Win.t) :
  resizing f = true →
  truthy (Win.maximized win) = false →
  (∀ n, rs_w (resizeStart f) ≠ Num n) →
  (∀ n, rs_h (resizeStart f) ≠ Num n) →
  v ∈ windows (onMouseMove win f event s) →
  Win.id v = Win.id win →
  Win.width v = NaN ∧ Win.height v = NaN.
Proof.
  intros Hres Hmax Hw Hh. unfold onMouseMove. rewrite Hres, orb_true_r.
  rewrite windows_autoFocus. unfold handleMove. rewrite Hres, Hmax.
  cbn [negb andb]. intros Hv Hid.
  destruct (resizeWindow_stores _ _ _ _ Hv Hid) as [-> ->].
  cbn [size_width size_height].
  destruct (rs_w (resizeStart f)) as [n| |], (rs_h (resizeStart f)) as [m| |];
    try (by destruct (Hw n)); try (by destruct (Hh m)); done.
Qed.

(** ** Dragging *)

Lemma resizeWindow_keeps_pos i size s v :
  v ∈ windows (resizeWindow i size s) →
  ∃ u, u ∈ windows s ∧ Win.id u = Win.id v ∧ Win.x u = Win.x v ∧ Win.y u = Win.y v.
Proof.
  simpl. intros (u & -> & Hu)%list_elem_of_fmap.
  exists u. by case_bool_decide.
Qed.

(** C9. A press on the title bar of a frame that is neither minimized
    nor maximized records the pointer offset from the frame's rectangle.
    From then on, whatever the host state has become, every pointer move
    puts the records carrying the id at the pointer position minus that
    offset (the frame is rendered from a record [win1] with the same id,
    not maximized).  With the frame at (100, 100), a press at (120, 115)
    and a move to (200, 115) give (180, 100). *)
Theorem C9_drag_follows_pointer :
  (∀ (win win1 : Win.t) (rect : Rect) (down move : MouseEvent)
     (f : Frame) (s s1 : State) (v : Win.t),
     Win.minimized win = false →
     truthy (Win.maximized win) = false →
     Win.id win1 = Win.id win →
     truthy (Win.maximized win1) = false →
     v ∈ windows (onMouseMove win1 (startDrag win rect down (f, s)).1 move s1) →
     Win.id v = Win.id win →
     Win.x v = clientX move - (clientX down - rect_left rect) ∧
     Win.y v = clientY move - (clientY down - rect_top rect)) ∧
  (let s := step (Move "chat-1" {| pos_x := 100; pos_y := 100 |}) one_window in
   ∃ win win1 v,
     props "chat-1" s = Some win ∧ Win.x win = 100 ∧ Win.y win = 100 ∧
     let fs := startDrag win {| rect_left := Win.x win; rect_top := Win.y win |}
                 {| clientX := 120; clientY := 115 |} (frame0, s) in
     props "chat-1" fs.2 = Some win1 ∧
     props "chat-1" (onMouseMove win1 fs.1 {| clientX := 200; clientY := 115 |} fs.2)
       = Some v ∧
     Win.x v = 180 ∧ Win.y v = 100).
Proof.
  split.
  - intros win win1 rect down move f s s1 v Hmin Hmax Hid1 Hmax1.
    unfold startDrag. rewrite Hmin, Hmax. cbn [orb fst snd].
    unfold onMouseMove. cbn [dragging orb]. rewrite windows_autoFocus.
    unfold handleMove. cbn [dragging resizing dragOffset resizeStart pos_x pos_y].
    rewrite Hmax1, Hid1. cbn [negb andb]. rewrite andb_true_r.
    intros Hv Hid.
    destruct (resizing f).
    + apply resizeWindow_keeps_pos in Hv as (u & Hu & Hidu & <- & <-).
      apply moveWindow_stores in Hu; [done|congruence].
    + by apply moveWindow_stores in Hv.
  - do 3 eexists. repeat split; reflexivity.
Qed.

Lemma C9_drag_follows_pointer_witness :
  let s := step (Move "chat-1" {| pos_x := 100; pos_y := 100 |}) one_window in
  let win := Win.with_pos 100 100 chat_window in
  let rect := {| rect_left := 100; rect_top := 100 |} in
  let down := {| clientX := 120; clientY := 115 |} in
  let move := {| clientX := 200; clientY := 115 |} in
  let fs := startDrag win rect down (frame0, s) in
  let win1 := Win.with_zIndex 2 win in
  let v := Win.with_pos 180 100 win1 in
  props "chat-1" s = Some win ∧
  props "chat-1" fs.2 = Some win1 ∧
  props "chat-1" (onMouseMove win1 fs.1 move fs.2) = Some v ∧
  Win.x v = 200 - (120 - 100) ∧ Win.y v = 115 - (115 - 100).
Proof.
  intros s win rect down move fs win1 v.
  split; [reflexivity|]. split; [reflexivity|]. split; [reflexivity|].
  refine (proj1 C9_drag_follows_pointer win win1 rect down move frame0 s fs.2 v _ _ _ _ _ _).
  - reflexivity.
  - reflexivity.
  - reflexivity.
  - reflexivity.
  - apply (bool_decide_unpack _). vm_compute. exact I.
  - reflexivity.
Defined.

(** ** Operations on an id that is not in the list *)

Lemma map_if_absent (i : string) (g : Win.t → Win.t) (l : list Win.t) :
  i ∉ map Win.id l →
  map (λ win, if bool_decide (Win.id win = i) then g win else win) l = l.
Proof.
  intros Habs. rewrite <- (map_id l) at 2. apply map_ext_in.
  intros w Hw. case_bool_decide as Hid; [|done].
  destruct Habs. subst i. apply (list_elem_of_fmap_2 Win.id). by apply list_elem_of_In.
Qed.

Lemma filter_absent (i : string) (l : list Win.t) :
  i ∉ map Win.id l → filter (λ win, Win.id win ≠ i) l = l.
Proof.
  induction l as [|w l IH]; [done|].
  intros Habs. rewrite filter_cons_True.
  - f_equal. apply IH. intros Hin. apply Habs. simpl. by right.
  - simpl. intros <-. apply Habs. simpl. left.
Qed.

Lemma State_eta s : {| windows := windows s; activeWindowId := activeWindowId s |} = s.
Proof. by destruct s. Qed.

Lemma bringToFront_absent i s :
  i ∉ ids s → bringToFront i s = setActiveWindowId (λ _, Some i) s.
Proof.
  intros Habs. unfold bringToFront, setWindows, setActiveWindowId. simpl.
  by rewrite map_if_absent.
Qed.

Lemma handler_absent_windows o i s :
  i ∉ ids s → target o = Some i → windows (handler o s) = windows s.
Proof.
  intros Habs Ht.
  destruct o as [ty now|j|j|j|j|j|j pos|j size]; simplify_eq/=;
    first [by apply filter_absent | by rewrite !(map_if_absent i) | idtac].
  - rewrite (map_if_absent i _ (windows s)) by done. by rewrite map_if_absent.
  - rewrite (map_if_absent i _ (windows s)) by done. by rewrite map_if_absent.
Qed.

(** C4, as stated, fails: with the chat window focused and the research
    window last in the list, focus on an id that is not in the list
    leaves the list alone but moves the focus to the research window. *)
Lemma C4_focus_absent_id_counterexample :
  ("ghost" ∉ ids two_windows) ∧
  activeWindowId two_windows = Some "chat-1" ∧
  windows (step (Focus "ghost") two_windows) = windows two_windows ∧
  activeWindowId (bringToFront "ghost" two_windows) = Some "ghost" ∧
  activeWindowId (step (Focus "ghost") two_windows) = Some "research-2" ∧
  activeWindowId (step (Focus "ghost") two_windows) ≠ activeWindowId two_windows.
Proof.
  split; [apply (bool_decide_unpack _); vm_compute; exact I|].
  repeat split; try reflexivity. discriminate.
Qed.

(** C4, amended. For an id that is not in the list, every operation
    aimed at it leaves the list as it is.  Move and resize leave the whole
    state as it is; so do close and minimize unless the focused id is that
    very id.  Focus, maximize and restore make the absent id the focused
    id; the effect then moves the focus to the last record when the list
    is not empty. *)
Theorem C4_absent_id (s : State) (i : string) :
  i ∉ ids s →
  (∀ o, target o = Some i → windows (step o s) = windows s) ∧
  (∀ pos size, handler (Move i pos) s = s ∧ handler (Resize i size) s = s) ∧
  (activeWindowId s ≠ Some i →
     handler (Close i) s = s ∧ handler (Minimize i) s = s) ∧
  (∀ o, o = Focus i ∨ o = Maximize i ∨ o = Restore i →
     activeWindowId (handler o s) = Some i ∧
     activeWindowId (step o s) =
       match last (windows s) with
       | Some newest => Some (Win.id newest)
       | None => Some i
       end).
Proof.
  intros Habs. split; [|split; [|split]].
  - intros o Ht. rewrite windows_step. by apply (handler_absent_windows o i).
  - intros pos size. simpl. unfold moveWindow, resizeWindow, setWindows.
    rewrite !(map_if_absent i) by done. by rewrite State_eta.
  - intros Hact. simpl. unfold closeWindow, minimizeWindow, setWindows, setActiveWindowId.
    simpl. rewrite bool_decide_eq_false_2 by done.
    rewrite filter_absent, (map_if_absent i) by done. by rewrite State_eta.
  - intros o Ho. unfold step.
    assert (handler o s = setActiveWindowId (λ _, Some i) s) as ->.
    { destruct Ho as [->| [->| ->]]; simpl.
      - by apply bringToFront_absent.
      - unfold maximizeWindow, setWindows. rewrite (map_if_absent i) by done.
        rewrite State_eta. by apply bringToFront_absent.
      - unfold restoreWindow, setWindows. rewrite (map_if_absent i) by done.
        rewrite State_eta. by apply bringToFront_absent. }
    split; [done|].
    destruct (last (windows s)) as [w|] eqn:Hlast.
    + rewrite (autoFocus_fires _ w); [done|exact Hlast|].
      simpl. by intros j [= <-].
    + apply last_None in Hlast. rewrite autoFocus_settled; [done|by left].
Qed.

Lemma C4_absent_id_witness :
  ("ghost" ∉ ids two_windows) ∧
  windows (step (Close "ghost") two_windows) = windows two_windows ∧
  handler (Move "ghost" {| pos_x := 3; pos_y := 4 |}) two_windows = two_windows.
Proof.
  assert ("ghost" ∉ ids two_windows) as Habs
    by (apply (bool_decide_unpack _); vm_compute; exact I).
  split; [exact Habs|]. split.
  - exact (proj1 (C4_absent_id two_windows "ghost" Habs) (Close "ghost") eq_refl).
  - exact (proj1 (proj1 (proj2 (C4_absent_id two_windows "ghost" Habs))
                   {| pos_x := 3; pos_y := 4 |} {| size_width := Num 1; size_height := Num 1 |})).
Defined.

(** ** One record per type *)

Lemma types_map_if (P : Win.t → Prop) `{!∀ w, Decision (P w)} (g : Win.t → Win.t) (l : list Win.t) :
  (∀ w, Win.type (g w) = Win.type w) →
  map Win.type (map (λ win, if bool_decide (P win) then g win else win) l) = map Win.type l.
Proof.
  intros Hg. rewrite map_map. apply map_ext. intros w.
  case_bool_decide; [apply Hg|done].
Qed.

Lemma types_bringToFront i s : types (bringToFront i s) = types s.
Proof. unfold types; simpl. by apply types_map_if. Qed.

(** [prev.find(win => win.type === type)] finds a record exactly when
    the type is in the list. *)
Lemma find_type_Some ty (l : list Win.t) :
  ty ∈ map Win.type l →
  ∃ w, List.find (λ win, bool_decide (Win.type win = ty)) l = Some w.
Proof.
  intros (w & -> & Hw)%list_elem_of_fmap.
  destruct (find _ l) as [u|] eqn:Hfind; [by exists u|].
  apply list_elem_of_In in Hw.
  pose proof (find_none _ _ Hfind w Hw) as Hn. simpl in Hn.
  by rewrite bool_decide_eq_true_2 in Hn.
Qed.

Lemma find_type_None ty (l : list Win.t) :
  List.find (λ win, bool_decide (Win.type win = ty)) l = None → ty ∉ map Win.type l.
Proof.
  intros Hfind (w & -> & Hw)%list_elem_of_fmap.
  apply list_elem_of_In in Hw.
  pose proof (find_none _ _ Hfind w Hw) as Hn. simpl in Hn.
  by rewrite bool_decide_eq_true_2 in Hn.
Qed.

Lemma NoDup_types_handler o s : NoDup (types s) → NoDup (types (handler o s)).
Proof.
  intros Hnd. destruct o as [ty now|i|i|i|i|i|i pos|i size]; simpl.
  - unfold types; simpl.
    destruct (find _ _) as [w|] eqn:Hfind.
    + by rewrite types_map_if.
    + rewrite map_app. apply NoDup_app. split; [done|]. split.
      * intros t Ht ->%list_elem_of_singleton. by apply find_type_None in Hfind.
      * apply NoDup_singleton.
  - unfold types; simpl. eapply sublist_NoDup; [exact Hnd|].
    apply (fmap_sublist Win.type). apply sublist_filter.
  - by rewrite types_bringToFront.
  - unfold types; simpl. by rewrite types_map_if.
  - unfold maximizeWindow. rewrite types_bringToFront.
    unfold types; simpl. by rewrite types_map_if.
  - unfold restoreWindow. rewrite types_bringToFront.
    unfold types; simpl. by rewrite types_map_if.
  - unfold types; simpl. by rewrite types_map_if.
  - unfold types; simpl. by rewrite types_map_if.
Qed.

Lemma NoDup_types_run ops s : NoDup (types s) → NoDup (types (run ops s)).
Proof.
  revert s. induction ops as [|o ops IH]; intros s Hnd; [done|].
  simpl. apply IH. unfold types, step. rewrite windows_autoFocus.
  by apply NoDup_types_handler.
Qed.

(** C6. Starting from the empty list, no sequence of host operations
    (of open calls in particular) yields two records of one type.
    Opening a type that is in the list keeps the length of the list; the
    records of that type get minimized = false and zIndex = max + 1 (a
    zIndex above every zIndex of the old list, 1 or the successor of one
    of them, and not below any zIndex of the new list) and keep their
    other fields, and every other record is left as it is. *)
Theorem C6_one_record_per_type :
  (∀ ops : list Op, NoDup (types (run ops init))) ∧
  (∀ (s : State) (ty : string) (now : N),
     ty ∈ types s →
     length (windows (step (Open ty now) s)) = length (windows s) ∧
     ∀ (k : nat) (w : Win.t),
       windows s !! k = Some w →
       ∃ w', windows (step (Open ty now) s) !! k = Some w' ∧
             (Win.type w ≠ ty → w' = w) ∧
             (Win.type w = ty →
                Win.minimized w' = false ∧
                Win.zIndex w' = maxZ (windows s) + 1 ∧
                Win.id w' = Win.id w ∧ Win.type w' = Win.type w ∧
                Win.title w' = Win.title w ∧
                Win.width w' = Win.width w ∧ Win.height w' = Win.height w ∧
                Win.x w' = Win.x w ∧ Win.y w' = Win.y w ∧
                Win.maximized w' = Win.maximized w ∧
                (∀ u, u ∈ windows s → Win.zIndex u < Win.zIndex w') ∧
                (Win.zIndex w' = 1 ∨
                 ∃ u, u ∈ windows s ∧ Win.zIndex w' = Win.zIndex u + 1) ∧
                (∀ v, v ∈ windows (step (Open ty now) s) →
                      Win.zIndex v ≤ Win.zIndex w'))).
Proof.
  split.
  - intros ops. apply NoDup_types_run. constructor.
  - intros s ty now Hty. rewrite windows_step. simpl.
    destruct (find_type_Some ty (windows s) Hty) as [u ->].
    split; [by rewrite length_map|].
    destruct (maxZ_succ_spec (windows s)) as [Habove Hsucc].
    set (f := λ win : Win.t, if bool_decide (Win.type win = ty)
                             then Win.with_zIndex (maxZ (windows s) + 1)
                                    (Win.with_minimized false win) else win).
    change (map f (windows s)) with (f <$> windows s).
    intros k w Hk. exists (f w). split; [by rewrite list_lookup_fmap, Hk|].
    split; intros Hw.
    + unfold f. by rewrite bool_decide_eq_false_2.
    + assert (f w = Win.with_zIndex (maxZ (windows s) + 1) (Win.with_minimized false w))
        as -> by (unfold f; by rewrite bool_decide_eq_true_2).
      cbn [Win.with_zIndex Win.with_minimized Win.id Win.type Win.title Win.width
           Win.height Win.x Win.y Win.minimized Win.maximized Win.zIndex].
      do 10 (split; [done|]). split; [exact Habove|]. split; [exact Hsucc|].
      intros v (v0 & -> & Hv0)%list_elem_of_fmap.
      unfold f. case_bool_decide; simpl; [lia|].
      pose proof (maxZ_ge _ _ Hv0). lia.
Qed.

Lemma C6_one_record_per_type_witness :
  types (run [Open "chat" 1%N; Open "research" 2%N; Open "chat" 3%N] init)
    = ["chat"; "research"] ∧
  length (windows (step (Open "chat" 3%N) two_windows)) = 2%nat ∧
  ∃ w', windows (step (Open "chat" 3%N) two_windows) !! 0%nat = Some w' ∧
        Win.zIndex w' = 3 ∧
        (∀ u, u ∈ windows two_windows → Win.zIndex u < Win.zIndex w').
Proof.
  split; [reflexivity|].
  destruct (proj2 C6_one_record_per_type two_windows "chat" 3%N) as [Hlen Hrec].
  { apply (bool_decide_unpack _). vm_compute. exact I. }
  split; [exact Hlen|].
  destruct (Hrec 0%nat chat_window eq_refl) as (w' & Hw' & _ & Hraised).
  destruct (Hraised eq_refl) as (_ & Hz & _ & _ & _ & _ & _ & _ & _ & _ & Habove & _).
  exists w'. split; [exact Hw'|]. split; [exact Hz|exact Habove].
Defined.

(** ** The taskbar *)

Lemma maxZ_map_preserve (f : Win.t → Win.t) (l : list Win.t) :
  (∀ w, Win.zIndex (f w) = Win.zIndex w) → maxZ (map f l) = maxZ l.
Proof.
  intros Hf. unfold maxZ. f_equal. rewrite map_map. apply map_ext.
  intros w. by rewrite Hf.
Qed.

(** What [bringToFront] does to the records carrying the id. *)
Lemma bringToFront_raises i s v :
  v ∈ windows (bringToFront i s) → Win.id v = i →
  Win.zIndex v = maxZ (windows s) + 1 ∧
  (∀ u, u ∈ windows (bringToFront i s) → Win.zIndex u ≤ Win.zIndex v) ∧
  ∃ v0, v0 ∈ windows s ∧ v = Win.with_zIndex (maxZ (windows s) + 1) v0.
Proof.
  simpl. intros (v0 & -> & Hv0)%list_elem_of_fmap Hid.
  case_bool_decide as Hc; [|done]. split; [done|]. split; [|eauto].
  intros u (u0 & -> & Hu0)%list_elem_of_fmap. simpl.
  case_bool_decide; simpl; [lia|]. pose proof (maxZ_ge _ _ Hu0). lia.
Qed.

Lemma bringToFront_focused i s :
  i ∈ ids s → autoFocus (bringToFront i s) = bringToFront i s.
Proof.
  intros Hin. apply autoFocus_settled. right. exists i. split; [done|].
  fold (ids (bringToFront i s)). by rewrite ids_bringToFront.
Qed.

(** C10. A click on the taskbar button of a record [w] of the list does
    one of three things.  If [w] is minimized, it is the restore
    operation: the records carrying the id are no longer minimized, hold
    the greatest zIndex and the id is focused.  Otherwise, if the id is
    the focused one, it is the minimize operation.  Otherwise it is the
    focus operation: the records carrying the id hold the greatest
    zIndex and the id is focused. *)
Theorem C10_taskbar_click (s : State) (w : Win.t) :
  w ∈ windows s →
  (Win.minimized w = true →
     autoFocus (taskbarClick w s) = step (Restore (Win.id w)) s ∧
     activeWindowId (autoFocus (taskbarClick w s)) = Some (Win.id w) ∧
     ∀ v, v ∈ windows (autoFocus (taskbarClick w s)) → Win.id v = Win.id w →
       Win.minimized v = false ∧
       Win.zIndex v = maxZ (windows s) + 1 ∧
       ∀ u, u ∈ windows (autoFocus (taskbarClick w s)) → Win.zIndex u ≤ Win.zIndex v) ∧
  (Win.minimized w = false → activeWindowId s = Some (Win.id w) →
     autoFocus (taskbarClick w s) = step (Minimize (Win.id w)) s ∧
     activeWindowId (taskbarClick w s) = None ∧
     ∀ v, v ∈ windows (autoFocus (taskbarClick w s)) → Win.id v = Win.id w →
       Win.minimized v = true) ∧
  (Win.minimized w = false → activeWindowId s ≠ Some (Win.id w) →
     autoFocus (taskbarClick w s) = step (Focus (Win.id w)) s ∧
     activeWindowId (autoFocus (taskbarClick w s)) = Some (Win.id w) ∧
     ∀ v, v ∈ windows (autoFocus (taskbarClick w s)) → Win.id v = Win.id w →
       Win.zIndex v = maxZ (windows s) + 1 ∧
       ∀ u, u ∈ windows (autoFocus (taskbarClick w s)) → Win.zIndex u ≤ Win.zIndex v).
Proof.
  intros Hw.
  assert (Win.id w ∈ ids s) as Hin by by apply (list_elem_of_fmap_2 Win.id).
  unfold taskbarClick. split; [|split].
  - intros ->. split; [done|].
    set (s0 := setWindows (λ prev,
                 map (λ win, if bool_decide (Win.id win = Win.id w)
                             then Win.with_minimized false win else win) prev) s).
    change (restoreWindow (Win.id w) s) with (bringToFront (Win.id w) s0).
    assert (ids s0 = ids s) as Hids by (unfold ids; simpl; by apply ids_map_if).
    assert (maxZ (windows s0) = maxZ (windows s)) as Hmz.
    { simpl. apply maxZ_map_preserve. intros u. by case_bool_decide. }
    rewrite bringToFront_focused by by rewrite Hids.
    split; [done|]. intros v Hv Hid.
    destruct (bringToFront_raises _ _ _ Hv Hid) as (Hz & Hmax & v0 & Hv0 & ->).
    rewrite <- Hmz. split; [|done]. simpl in Hv0.
    apply list_elem_of_fmap in Hv0 as (v1 & -> & Hv1).
    simpl in Hid. case_bool_decide as Hc; [done|]. by destruct Hc.
  - intros -> Hact. rewrite bool_decide_eq_true_2 by done. split; [done|].
    split; [simpl; by rewrite bool_decide_eq_true_2|].
    rewrite windows_autoFocus. simpl.
    intros v (v0 & -> & Hv0)%list_elem_of_fmap Hid.
    case_bool_decide as Hc; [done|]. by destruct Hc.
  - intros -> Hact. rewrite bool_decide_eq_false_2 by done. split; [done|].
    rewrite bringToFront_focused by done.
    split; [done|]. intros v Hv Hid.
    destruct (bringToFront_raises _ _ _ Hv Hid) as (Hz & Hmax & _). done.
Qed.

Lemma C10_taskbar_click_witness :
  props "research-2" minimized_window = Some minimized_research ∧
  autoFocus (taskbarClick minimized_research minimized_window)
    = step (Restore "research-2") minimized_window ∧
  activeWindowId (autoFocus (taskbarClick minimized_research minimized_window))
    = Some "research-2".
Proof.
  split; [reflexivity|].
  assert (minimized_research ∈ windows minimized_window) as Hin
    by (apply (bool_decide_unpack _); vm_compute; exact I).
  destruct (proj1 (C10_taskbar_click minimized_window minimized_research Hin) eq_refl)
    as (H1 & H2 & _).
  exact (conj H1 H2).
Defined.

(** * Further properties of the window host *)

(** ** The focus is never lost while a window is open *)

Lemma autoFocus_focus_present s :
  windows (autoFocus s) ≠ [] →
  ∃ i, activeWindowId (autoFocus s) = Some i ∧ i ∈ ids (autoFocus s).
Proof.
  intros Hne. rewrite windows_autoFocus in Hne. unfold ids. rewrite windows_autoFocus.
  destruct (existsb (λ w, bool_decide (Some (Win.id w) = activeWindowId s)) (windows s)) eqn:He.
  - apply some_active_spec in He. rewrite autoFocus_settled; [done|by right].
  - destruct (last (windows s)) as [w|] eqn:Hlast.
    + rewrite (autoFocus_fires s w Hlast).
      * exists (Win.id w). split; [done|].
        apply (list_elem_of_fmap_2 Win.id). by apply last_Some_elem_of.
      * intros i Hi Hin.
        assert (existsb (λ w, bool_decide (Some (Win.id w) = activeWindowId s))
                  (windows s) = true) as Ht by (apply some_active_spec; eauto).
        congruence.
    + apply last_None in Hlast. by destruct Hne.
Qed.

(** X1. After any host operation, from any state, a non-empty list has a
    focused id and that id is the id of a record of the list: the effect
    never leaves the focus at null or on a closed window while a window
    is open. *)
Theorem X1_focus_present_after_step (o : Op) (s : State) :
  windows (step o s) ≠ [] →
  ∃ i, activeWindowId (step o s) = Some i ∧ i ∈ ids (step o s).
Proof. apply autoFocus_focus_present. Qed.

Lemma X1_focus_present_after_step_witness :
  ∃ i, activeWindowId (step (Close "chat-1") two_windows) = Some i ∧
       i ∈ ids (step (Close "chat-1") two_windows).
Proof.
  apply (X1_focus_present_after_step (Close "chat-1") two_windows).
  vm_compute. discriminate.
Defined.

(** ** Well-formed states *)

Lemma NoDup_fmap_inj_on {A B} (f : A → B) (l : list A) (a b : A) :
  NoDup (f <$> l) → a ∈ l → b ∈ l → f a = f b → a = b.
Proof.
  induction l as [|c l IH]; [by intros _ Ha; inversion Ha|].
  rewrite fmap_cons, NoDup_cons. intros [Hc Hnd] Ha Hb Hab.
  apply elem_of_cons in Ha as [->|Ha], Hb as [->|Hb]; [done| | |by apply IH].
  - destruct Hc. rewrite Hab. by apply list_elem_of_fmap_2.
  - destruct Hc. rewrite <- Hab. by apply list_elem_of_fmap_2.
Qed.

(** In a well-formed state the ids are distinct. *)
Lemma well_formed_ids s : well_formed s → NoDup (ids s).
Proof.
  intros (Hty & Hid & _ & _). unfold ids, types in *.
  apply (NoDup_fmap_2_strong Win.id); [|by apply (NoDup_fmap_1 Win.type)].
  intros a b Ha Hb Hab.
  destruct (Hid a Ha) as [ta Hta], (Hid b Hb) as [tb Htb].
  rewrite Hta, Htb in Hab. apply newId_type in Hab.
  by apply (NoDup_fmap_inj_on Win.type (windows s)).
Qed.

Lemma map_if_key_absent (key : Win.t → string) (k : string) (g : Win.t → Win.t)
    (l : list Win.t) :
  k ∉ map key l →
  map (λ win, if bool_decide (key win = k) then g win else win) l = l.
Proof.
  intros Habs. rewrite <- (map_id l) at 2. apply map_ext_in.
  intros w Hw. case_bool_decide as Hid; [|done].
  destruct Habs. subst k. apply (list_elem_of_fmap_2 key). by apply list_elem_of_In.
Qed.

(** Raising the one record with a given key above the others keeps the
    zIndexes distinct. *)
Lemma raise_NoDup_zIndex (key : Win.t → string) (k : string) (g : Win.t → Win.t)
    (l : list Win.t) (m : Z) :
  NoDup (map key l) →
  NoDup (map Win.zIndex l) →
  (∀ w, w ∈ l → Win.zIndex w ≤ m) →
  (∀ w, Win.zIndex (g w) = m + 1) →
  NoDup (map Win.zIndex (map (λ w, if bool_decide (key w = k) then g w else w) l)).
Proof.
  intros Hk Hz Hle Hg. induction l as [|w l IH]; [constructor|].
  simpl in Hk, Hz. apply NoDup_cons in Hk as [Hkw Hk], Hz as [Hzw Hz].
  assert (∀ u, u ∈ l → Win.zIndex u ≤ m) as Hle'
    by (intros u Hu; apply Hle; by right).
  cbn [map]. case_bool_decide as Hc.
  - subst k. rewrite (map_if_key_absent key (key w)) by done.
    apply NoDup_cons. split; [|done]. rewrite Hg.
    intros (u & Hu & Hin)%(list_elem_of_fmap_1 Win.zIndex).
    specialize (Hle' u Hin). lia.
  - apply NoDup_cons. split; [|by apply IH].
    intros (u' & Hu' & Hin')%(list_elem_of_fmap_1 Win.zIndex).
    apply (list_elem_of_fmap_1 (λ w0, if bool_decide (key w0 = k) then g w0 else w0))
      in Hin' as (u & -> & Hin).
    case_bool_decide.
    + rewrite Hg in Hu'. pose proof (Hle w (list_elem_of_here _ _)). lia.
    + apply Hzw. rewrite Hu'. by apply (list_elem_of_fmap_2 Win.zIndex).
Qed.

(** Handlers that rewrite fields other than id, type and zIndex. *)
Lemma well_formed_map_fields (P : Win.t → Prop) `{!∀ w, Decision (P w)}
    (g : Win.t → Win.t) (s : State) :
  (∀ w, Win.id (g w) = Win.id w) →
  (∀ w, Win.type (g w) = Win.type w) →
  (∀ w, Win.zIndex (g w) = Win.zIndex w) →
  well_formed s →
  well_formed (setWindows (map (λ win, if bool_decide (P win) then g win else win)) s).
Proof.
  intros Gid Gty Gz (Hty & Hid & Hz & Hpos).
  set (f := λ win, if bool_decide (P win) then g win else win).
  assert (∀ w, Win.id (f w) = Win.id w ∧ Win.type (f w) = Win.type w ∧
               Win.zIndex (f w) = Win.zIndex w) as Hf.
  { intros w. unfold f. by case_bool_decide. }
  unfold well_formed, types. simpl. split; [|split; [|split]].
  - rewrite map_map. erewrite map_ext; [exact Hty|]. intros w. apply Hf.
  - intros v (u & -> & Hu)%(list_elem_of_fmap_1 f).
    destruct (Hf u) as (-> & -> & _). by apply Hid.
  - rewrite map_map. erewrite map_ext; [exact Hz|]. intros w. apply Hf.
  - intros v (u & -> & Hu)%(list_elem_of_fmap_1 f).
    destruct (Hf u) as (_ & _ & ->). by apply Hpos.
Qed.

Lemma well_formed_setActiveWindowId f s :
  well_formed (setActiveWindowId f s) ↔ well_formed s.
Proof. done. Qed.

Lemma well_formed_bringToFront i s : well_formed s → well_formed (bringToFront i s).
Proof.
  intros Hwf. pose proof (well_formed_ids s Hwf) as Hids.
  destruct Hwf as (Hty & Hid & Hz & Hpos).
  unfold bringToFront. apply well_formed_setActiveWindowId.
  set (f := λ win, if bool_decide (Win.id win = i)
                   then Win.with_zIndex (maxZ (windows s) + 1) win else win).
  assert (∀ w, Win.id (f w) = Win.id w ∧ Win.type (f w) = Win.type w) as Hf.
  { intros w. unfold f. by case_bool_decide. }
  unfold well_formed, types. simpl. split; [|split; [|split]].
  - rewrite map_map. erewrite map_ext; [exact Hty|]. intros w. apply Hf.
  - intros v (u & -> & Hu)%(list_elem_of_fmap_1 f).
    destruct (Hf u) as (-> & ->). by apply Hid.
  - apply (raise_NoDup_zIndex Win.id i _ _ (maxZ (windows s))); [done|done|apply maxZ_ge|done].
  - intros v (u & -> & Hu)%(list_elem_of_fmap_1 f). unfold f.
    case_bool_decide; [|by apply Hpos]. simpl. pose proof (maxZ_nonneg (windows s)). lia.
Qed.

Lemma well_formed_handler o s : well_formed s → well_formed (handler o s).
Proof.
  intros Hwf. destruct o as [ty now|i|i|i|i|i|i pos|i size]; simpl.
  - destruct Hwf as (Hty & Hid & Hz & Hpos).
    unfold well_formed, types. simpl.
    destruct (find _ _) as [w0|] eqn:Hfind.
    + set (f := λ win, if bool_decide (Win.type win = ty)
                       then Win.with_zIndex (maxZ (windows s) + 1)
                              (Win.with_minimized false win) else win).
      assert (∀ w, Win.id (f w) = Win.id w ∧ Win.type (f w) = Win.type w) as Hf.
      { intros w. unfold f. by case_bool_decide. }
      split; [|split; [|split]].
      * rewrite map_map. erewrite map_ext; [exact Hty|]. intros w. apply Hf.
      * intros v (u & -> & Hu)%(list_elem_of_fmap_1 f).
        destruct (Hf u) as (-> & ->). by apply Hid.
      * apply (raise_NoDup_zIndex Win.type ty _ _ (maxZ (windows s))); [done|done|apply maxZ_ge|done].
      * intros v (u & -> & Hu)%(list_elem_of_fmap_1 f). unfold f.
        case_bool_decide; [|by apply Hpos]. simpl.
        pose proof (maxZ_nonneg (windows s)). lia.
    + pose proof (maxZ_nonneg (windows s)) as Hm.
      split; [|split; [|split]].
      * rewrite map_app. apply NoDup_app. split; [done|]. split.
        -- intros t Ht ->%list_elem_of_singleton. by apply find_type_None in Hfind.
        -- apply NoDup_singleton.
      * intros v [Hv| ->%list_elem_of_singleton]%elem_of_app; [by apply Hid|].
        by exists now.
      * rewrite map_app. apply NoDup_app. split; [done|]. split.
        -- intros z (u & -> & Hu)%(list_elem_of_fmap_1 Win.zIndex).
           intros Heq%list_elem_of_singleton.
           pose proof (maxZ_ge _ _ Hu). simpl in Heq. lia.
        -- apply NoDup_singleton.
      * intros v [Hv| ->%list_elem_of_singleton]%elem_of_app; [by apply Hpos|].
        simpl. lia.
  - destruct Hwf as (Hty & Hid & Hz & Hpos).
    unfold well_formed, types. simpl. split; [|split; [|split]].
    + eapply sublist_NoDup; [exact Hty|].
      apply (fmap_sublist Win.type). apply sublist_filter.
    + intros v [_ Hv]%list_elem_of_filter. by apply Hid.
    + eapply sublist_NoDup; [exact Hz|].
      apply (fmap_sublist Win.zIndex). apply sublist_filter.
    + intros v [_ Hv]%list_elem_of_filter. by apply Hpos.
  - by apply well_formed_bringToFront.
  - unfold minimizeWindow. apply well_formed_setActiveWindowId.
    by apply (well_formed_map_fields (λ win, Win.id win = i)).
  - unfold maximizeWindow. apply well_formed_bringToFront.
    by apply (well_formed_map_fields (λ win, Win.id win = i)
                (λ win, Win.with_minimized false
                          (Win.with_maximized (negb (truthy (Win.maximized win))) win))).
  - unfold restoreWindow. apply well_formed_bringToFront.
    by apply (well_formed_map_fields (λ win, Win.id win = i)).
  - by apply (well_formed_map_fields (λ win, Win.id win = i)).
  - by apply (well_formed_map_fields (λ win, Win.id win = i)).
Qed.

Lemma well_formed_autoFocus s : well_formed s → well_formed (autoFocus s).
Proof.
  unfold well_formed, types. by rewrite windows_autoFocus.
Qed.

Lemma well_formed_step o s : well_formed s → well_formed (step o s).
Proof. intros H. by apply well_formed_autoFocus, well_formed_handler. Qed.

Lemma well_formed_run ops s : well_formed s → well_formed (run ops s).
Proof.
  revert s. induction ops as [|o ops IH]; intros s Hwf; [done|].
  simpl. by apply IH, well_formed_step.
Qed.

Lemma well_formed_init : well_formed init.
Proof.
  unfold well_formed, types. simpl.
  repeat split; try constructor; intros w Hw; inversion Hw.
Qed.

Lemma reachable_well_formed s : reachable s → well_formed s.
Proof. intros [ops ->]. apply well_formed_run, well_formed_init. Qed.

(** ** Ids and stacking order of reachable states *)

(** X2. On every desktop reached from the empty one, no two records
    share an id. *)
Theorem X2_ids_distinct (ops : list Op) : NoDup (ids (run ops init)).
Proof. apply well_formed_ids, reachable_well_formed. by exists ops. Qed.

(** X4. On every desktop reached from the empty one, the zIndexes are
    pairwise distinct and at least 1: the stacking order has no ties. *)
Theorem X4_zIndex_distinct_positive (ops : list Op) :
  NoDup (map Win.zIndex (windows (run ops init))) ∧
  Forall (λ w, 1 ≤ Win.zIndex w) (windows (run ops init)).
Proof.
  destruct (reachable_well_formed (run ops init)) as (_ & _ & Hz & Hpos);
    [by exists ops|].
  split; [done|]. by apply Forall_forall.
Qed.

(** ** Closing a window *)

Lemma filter_removes_one (i : string) (l : list Win.t) :
  NoDup (map Win.id l) → i ∈ map Win.id l →
  (length (filter (λ win, Win.id win ≠ i) l) + 1 = length l)%nat.
Proof.
  induction l as [|w l IH]; [by intros _ H; inversion H|].
  simpl. intros [Hw Hnd]%NoDup_cons Hin.
  destruct (decide (Win.id w = i)) as [Heq|Hne].
  - rewrite filter_cons_False by (intros H; by apply H).
    subst i. rewrite filter_absent by done. lia.
  - rewrite filter_cons_True by done. simpl.
    apply elem_of_cons in Hin as [Hin|Hin]; [by destruct Hne|].
    rewrite <- (IH Hnd Hin). lia.
Qed.

(** X3. On a desktop reached from the empty one, closing a window that
    is in the list removes exactly one record: the list gets one shorter,
    the id is gone, every record with another id stays, and what is left
    is the old list with that record taken out (same records, same
    order). *)
Theorem X3_close_removes_exactly_one (ops : list Op) (i : string) :
  i ∈ ids (run ops init) →
  (length (windows (step (Close i) (run ops init))) + 1
   = length (windows (run ops init)))%nat ∧
  (i ∉ ids (step (Close i) (run ops init))) ∧
  (∀ w, w ∈ windows (run ops init) → Win.id w ≠ i →
        w ∈ windows (step (Close i) (run ops init))) ∧
  windows (step (Close i) (run ops init)) `sublist_of` windows (run ops init).
Proof.
  intros Hin. set (s := run ops init) in *.
  assert (NoDup (ids s)) as Hnd
    by (apply well_formed_ids, reachable_well_formed; by exists ops).
  unfold ids. rewrite windows_step. simpl.
  split; [by apply filter_removes_one|]. split; [|split].
  - intros (w & Hw & [Hne _]%list_elem_of_filter)%(list_elem_of_fmap_1 Win.id).
    by destruct Hne.
  - intros w Hw Hne. by apply list_elem_of_filter.
  - apply sublist_filter.
Qed.

Lemma X3_close_removes_exactly_one_witness :
  length (windows (step (Close "chat-1")
                     (run [Open "chat" 1%N; Open "research" 2%N] init))) = 1%nat.
Proof.
  pose proof (proj1 (X3_close_removes_exactly_one
                       [Open "chat" 1%N; Open "research" 2%N] "chat-1"
                       ltac:(apply (bool_decide_unpack _); vm_compute; exact I))) as H.
  change (length (windows (run [Open "chat" 1%N; Open "research" 2%N] init)))
    with 2%nat in H.
  lia.
Defined.

(** ** Maximize, minimize and restore *)

Lemma with_minimized_false_id (w : Win.t) :
  Win.minimized w = false → Win.with_minimized false w = w.
Proof. destruct w; simpl. by intros ->. Qed.

Lemma windows_maximize i s :
  windows (step (Maximize i) s) =
  map (λ win, if bool_decide (Win.id win = i)
              then Win.with_zIndex (maxZ (windows s) + 1)
                     (Win.with_minimized false
                        (Win.with_maximized (negb (truthy (Win.maximized win))) win))
              else win) (windows s).
Proof.
  rewrite windows_step. simpl. rewrite map_map.
  rewrite maxZ_map_preserve by (intros w; by case_bool_decide).
  apply map_ext. intros w.
  destruct (decide (Win.id w = i)) as [Hi|Hi].
  - rewrite (bool_decide_eq_true_2 (Win.id w = i)) by done. simpl.
    by rewrite bool_decide_eq_true_2.
  - rewrite (bool_decide_eq_false_2 (Win.id w = i)) by done.
    by rewrite bool_decide_eq_false_2.
Qed.

(** X5. Maximize never touches the stored geometry, and it toggles the
    flag: for the record at any place of the list, after maximize(id) the
    record at that place has the same id, type, title, position and size;
    if it carries the id its flag is negated and it is no longer
    minimized, otherwise it is the same record.  A second maximize(id)
    brings the flag back, with the geometry still as it was. *)
Theorem X5_maximize_toggles_flag_keeps_geometry
    (s : State) (i : string) (k : nat) (w : Win.t) :
  windows s !! k = Some w →
  ∃ v v2,
    windows (step (Maximize i) s) !! k = Some v ∧
    windows (step (Maximize i) (step (Maximize i) s)) !! k = Some v2 ∧
    (Win.id v, Win.type v, Win.title v) = (Win.id w, Win.type w, Win.title w) ∧
    (Win.x v, Win.y v, Win.width v, Win.height v)
      = (Win.x w, Win.y w, Win.width w, Win.height w) ∧
    (Win.x v2, Win.y v2, Win.width v2, Win.height v2)
      = (Win.x w, Win.y w, Win.width w, Win.height w) ∧
    truthy (Win.maximized v2) = truthy (Win.maximized w) ∧
    (Win.id w = i →
       truthy (Win.maximized v) = negb (truthy (Win.maximized w)) ∧
       Win.minimized v = false) ∧
    (Win.id w ≠ i → v = w ∧ v2 = w).
Proof.
  intros Hk. rewrite !windows_maximize.
  repeat match goal with |- context [map ?f ?l] => change (map f l) with (f <$> l) end.
  rewrite !list_lookup_fmap, Hk. cbn [fmap option_fmap option_map].
  do 2 eexists. split; [reflexivity|]. split; [reflexivity|].
  destruct (decide (Win.id w = i)) as [Hi|Hi].
  - rewrite !(bool_decide_eq_true_2 (Win.id w = i)) by done. cbn.
    rewrite ?(bool_decide_eq_true_2 (Win.id w = i)) by done. cbn.
    rewrite negb_involutive. repeat split; done.
  - rewrite !(bool_decide_eq_false_2 (Win.id w = i)) by done.
    rewrite ?(bool_decide_eq_false_2 (Win.id w = i)) by done.
    repeat split; done.
Qed.

Lemma X5_maximize_toggles_flag_keeps_geometry_witness :
  ∃ v v2,
    windows (step (Maximize "chat-1") two_windows) !! 0%nat = Some v ∧
    windows (step (Maximize "chat-1") (step (Maximize "chat-1") two_windows)) !! 0%nat
      = Some v2 ∧
    Win.maximized v = Some true ∧ Win.maximized v2 = Some false ∧
    (Win.x v2, Win.y v2, Win.width v2, Win.height v2) = (180, 80, Num 760, Num 520).
Proof.
  destruct (X5_maximize_toggles_flag_keeps_geometry two_windows "chat-1" 0 chat_window
              eq_refl) as (v & v2 & H1 & H2 & _).
  exists v, v2. split; [exact H1|]. split; [exact H2|].
  vm_compute in H1, H2. injection H1 as <-. injection H2 as <-.
  repeat split.
Defined.

(** X6. Two clicks on the taskbar button of the focused window, which is
    not minimized: the first minimizes it, the second (the button now
    stands for the minimized record) restores it.  The record is then
    what it was, but for its zIndex, which is one more than the greatest
    zIndex before the clicks, and its id is focused again. *)
Theorem X6_taskbar_click_twice (s : State) (k : nat) (w : Win.t) :
  windows s !! k = Some w →
  Win.minimized w = false →
  activeWindowId s = Some (Win.id w) →
  windows (autoFocus (taskbarClick w s)) !! k = Some (Win.with_minimized true w) ∧
  windows (autoFocus (taskbarClick (Win.with_minimized true w)
                        (autoFocus (taskbarClick w s)))) !! k
    = Some (Win.with_zIndex (maxZ (windows s) + 1) w) ∧
  activeWindowId (autoFocus (taskbarClick (Win.with_minimized true w)
                               (autoFocus (taskbarClick w s))))
    = Some (Win.id w).
Proof.
  intros Hk Hmin Hact.
  assert (Win.id w ∈ ids s) as Hin.
  { apply (list_elem_of_fmap_2 Win.id). by eapply list_elem_of_lookup_2. }
  assert (taskbarClick w s = minimizeWindow (Win.id w) s) as ->.
  { unfold taskbarClick. by rewrite Hmin, (bool_decide_eq_true_2 _ Hact). }
  set (s1 := autoFocus (minimizeWindow (Win.id w) s)).
  assert (windows s1 = (λ win, if bool_decide (Win.id win = Win.id w)
                               then Win.with_minimized true win else win)
                       <$> windows s) as Hs1
    by (unfold s1; by rewrite windows_autoFocus).
  assert (windows s1 !! k = Some (Win.with_minimized true w)) as Hk1.
  { rewrite Hs1, list_lookup_fmap, Hk. simpl. by rewrite bool_decide_eq_true_2. }
  split; [done|].
  unfold taskbarClick. cbn [Win.with_minimized Win.minimized Win.id].
  assert (ids s1 = ids s) as Hids.
  { unfold ids. rewrite Hs1. by apply ids_map_if. }
  assert (maxZ (windows s1) = maxZ (windows s)) as Hmz.
  { rewrite Hs1. apply maxZ_map_preserve. intros u. by case_bool_decide. }
  unfold restoreWindow.
  set (s2 := setWindows _ s1).
  assert (ids s2 = ids s) as Hids2.
  { rewrite <- Hids. unfold ids, s2. simpl. by apply ids_map_if. }
  assert (maxZ (windows s2) = maxZ (windows s)) as Hmz2.
  { rewrite <- Hmz. unfold s2. simpl. apply maxZ_map_preserve.
    intros u. by case_bool_decide. }
  assert (windows s2 !! k = Some w) as Hk2.
  { unfold s2. simpl.
    change (map ?f ?l) with (f <$> l). rewrite list_lookup_fmap, Hk1. simpl.
    rewrite bool_decide_eq_true_2 by done. f_equal.
    destruct w; simpl in *. by subst. }
  clearbody s2.
  rewrite bringToFront_focused by by rewrite Hids2.
  split; [|done].
  simpl. rewrite Hmz2.
  change (map ?f ?l) with (f <$> l). rewrite list_lookup_fmap, Hk2. simpl.
  by rewrite bool_decide_eq_true_2.
Qed.

Lemma X6_taskbar_click_twice_witness :
  windows (autoFocus (taskbarClick (Win.with_minimized true chat_window)
                        (autoFocus (taskbarClick chat_window one_window)))) !! 0%nat
    = Some (Win.with_zIndex 2 chat_window).
Proof.
  exact (proj1 (proj2 (X6_taskbar_click_twice one_window 0 chat_window
                         eq_refl eq_refl eq_refl))).
Defined.

(** ** Opening puts the window on top *)

(** X7. After open(type), whether the type was open or not, the list
    holds a record of that type which is not minimized and whose zIndex,
    one more than the greatest zIndex before the call, is the greatest of
    the list. *)
Theorem X7_open_puts_on_top (s : State) (ty : string) (now : N) :
  ∃ v, v ∈ windows (step (Open ty now) s) ∧
       Win.type v = ty ∧
       Win.minimized v = false ∧
       Win.zIndex v = maxZ (windows s) + 1 ∧
       Forall (λ u, Win.zIndex u ≤ Win.zIndex v) (windows (step (Open ty now) s)).
Proof.
  rewrite windows_step. simpl.
  destruct (find _ _) as [w0|] eqn:Hfind.
  - apply find_some in Hfind as [Hin Hty].
    apply bool_decide_eq_true in Hty. apply list_elem_of_In in Hin.
    set (f := λ win, if bool_decide (Win.type win = ty)
                     then Win.with_zIndex (maxZ (windows s) + 1)
                            (Win.with_minimized false win) else win).
    exists (f w0).
    assert (f w0 = Win.with_zIndex (maxZ (windows s) + 1) (Win.with_minimized false w0))
      as Hf by (unfold f; by rewrite bool_decide_eq_true_2).
    split; [by apply (list_elem_of_fmap_2 f)|]. rewrite Hf.
    repeat split; [done|]. simpl. apply Forall_forall.
    intros u (u0 & -> & Hu0)%(list_elem_of_fmap_1 f). unfold f.
    case_bool_decide; simpl; [lia|]. pose proof (maxZ_ge _ _ Hu0). lia.
  - eexists. split; [apply elem_of_app; right; apply list_elem_of_here|].
    repeat split. simpl. apply Forall_app. split.
    + apply Forall_forall. intros u Hu. pose proof (maxZ_ge _ _ Hu). lia.
    + apply Forall_singleton. simpl. lia.
Qed.

(** ** Move and resize compose *)

(** X8. The last move wins, the last resize wins, and a move and a
    resize (of the same window or of two windows) can be applied in
    either order. *)
Theorem X8_move_resize_compose
    (s : State) (i j : string) (p1 p2 : Pos) (z1 z2 : Size) :
  moveWindow i p2 (moveWindow i p1 s) = moveWindow i p2 s ∧
  resizeWindow i z2 (resizeWindow i z1 s) = resizeWindow i z2 s ∧
  moveWindow i p1 (resizeWindow j z1 s) = resizeWindow j z1 (moveWindow i p1 s).
Proof.
  unfold moveWindow, resizeWindow, setWindows. cbn [windows activeWindowId].
  rewrite !map_map. repeat split; f_equal; apply map_ext; intros w;
    destruct (decide (Win.id w = i)) as [Hi|Hi], (decide (Win.id w = j)) as [Hj|Hj];
    repeat first [ rewrite (bool_decide_eq_true_2 (Win.id w = i)) by done
                 | rewrite (bool_decide_eq_false_2 (Win.id w = i)) by done
                 | rewrite (bool_decide_eq_true_2 (Win.id w = j)) by done
                 | rewrite (bool_decide_eq_false_2 (Win.id w = j)) by done
                 | progress cbn [Win.id Win.with_pos Win.with_size] ];
    done.
Qed.

(** * Further properties of the window frame *)

(** ** The resize gesture *)

(** X9. A press on the resize handle of a frame that is not maximized
    (and not being dragged) records the pointer and the size of the
    record.  Every pointer move after it leaves the position of the
    records carrying the id alone.  When the recorded width is a number
    it gives them the width max(420, width + dx), dx counted from the
    press, and a pointer back at the place of the press gives back a
    width that was at least 420; when it is not a number (the record of a
    type that is an inherited name of the table has no size) it gives
    them NaN.  The same holds of the height, with 280 and dy. *)
Theorem X9_resize_gesture
    (win win1 : Win.t) (down move : MouseEvent) (f : Frame) (s s1 : State) (v : Win.t) :
  truthy (Win.maximized win) = false →
  dragging f = false →
  Win.id win1 = Win.id win →
  truthy (Win.maximized win1) = false →
  v ∈ windows (onMouseMove win1 (resizerMouseDown win down (f, s)).1 move s1) →
  Win.id v = Win.id win →
  (∃ u, u ∈ windows s1 ∧ Win.id u = Win.id v ∧ Win.x u = Win.x v ∧ Win.y u = Win.y v) ∧
  (∀ width0, Win.width win = Num width0 →
     Win.width v = Num (Z.max 420 (width0 + (clientX move - clientX down))) ∧
     (clientX move = clientX down → 420 ≤ width0 → Win.width v = Win.width win)) ∧
  (∀ height0, Win.height win = Num height0 →
     Win.height v = Num (Z.max 280 (height0 + (clientY move - clientY down))) ∧
     (clientY move = clientY down → 280 ≤ height0 → Win.height v = Win.height win)) ∧
  ((∀ n, Win.width win ≠ Num n) → Win.width v = NaN) ∧
  ((∀ n, Win.height win ≠ Num n) → Win.height v = NaN).
Proof.
  intros Hmax Hdrag Hid1 Hmax1.
  unfold resizerMouseDown, startResize. rewrite Hmax. cbn [fst snd].
  unfold onMouseMove. cbn [dragging resizing]. rewrite orb_true_r, windows_autoFocus.
  unfold handleMove. cbn [dragging resizing resizeStart rs_x rs_y rs_w rs_h].
  rewrite Hdrag, Hmax1, Hid1. cbn [negb andb].
  intros Hv Hid.
  destruct (resizeWindow_stores _ _ _ _ Hv Hid) as [Hw Hh].
  cbn [size_width size_height] in Hw, Hh.
  split; [by eapply resizeWindow_keeps_pos|].
  rewrite Hw, Hh. repeat split.
  - by rewrite H.
  - intros Hx Hge. rewrite H. simpl. f_equal. lia.
  - by rewrite H.
  - intros Hy Hge. rewrite H. simpl. f_equal. lia.
  - intros Hn. destruct (Win.width win) as [n| |]; [by destruct (Hn n)|done|done].
  - intros Hn. destruct (Win.height win) as [n| |]; [by destruct (Hn n)|done|done].
Qed.

Lemma X9_resize_gesture_witness :
  let down := {| clientX := 940; clientY := 600 |} in
  let move := {| clientX := 0; clientY := 640 |} in
  ∃ v, props "chat-1"
         (onMouseMove chat_window (resizerMouseDown chat_window down (frame0, one_window)).1
            move one_window) = Some v ∧
       Win.width v = Num 420 ∧ Win.height v = Num 560.
Proof.
  intros down move. eexists. split; [reflexivity|].
  destruct (X9_resize_gesture chat_window chat_window down move frame0 one_window one_window
              (Win.with_size (Num 420) (Num 560) chat_window)) as (_ & Hw & Hh & _);
    try reflexivity.
  - apply (bool_decide_unpack _). vm_compute. exact I.
  - split; [exact (proj1 (Hw 760 eq_refl))|exact (proj1 (Hh 520 eq_refl))].
Defined.

(** ** Releasing the pointer *)

(** X10. Whatever a frame was doing, once the pointer is released no
    pointer move reaches the host: the window is neither moved nor
    resized, and the captured offset and starting size stay as they
    were for nothing to read. *)
Theorem X10_pointer_up_ends_gesture
    (win win1 : Win.t) (rect : Rect) (down move : MouseEvent) (f : Frame) (s s1 : State) :
  onMouseMove win1 (handleUp f) move s1 = s1 ∧
  onMouseMove win1 (handleUp (titlebarMouseDown win rect down (f, s)).1) move s1 = s1 ∧
  onMouseMove win1 (handleUp (resizerMouseDown win down (f, s)).1) move s1 = s1.
Proof. done. Qed.

(** ** A press on the title bar *)

(** X14. A press on the title bar of a frame whose record is in the
    list always ends with that id focused and its records on top of the
    stacking order, also when the window is maximized; it starts a drag
    exactly when the window is not maximized (a rendered frame is not
    minimized), and then the offset is the pointer minus the corner of
    the frame's rectangle. *)
Theorem X14_titlebar_press
    (win : Win.t) (rect : Rect) (event : MouseEvent) (f : Frame) (s : State) :
  Win.id win ∈ ids s →
  Win.minimized win = false →
  activeWindowId (autoFocus (titlebarMouseDown win rect event (f, s)).2)
    = Some (Win.id win) ∧
  (∀ u v, u ∈ windows (titlebarMouseDown win rect event (f, s)).2 →
          v ∈ windows (titlebarMouseDown win rect event (f, s)).2 →
          Win.id v = Win.id win → Win.zIndex u ≤ Win.zIndex v) ∧
  (truthy (Win.maximized win) = true →
     (titlebarMouseDown win rect event (f, s)).1 = f) ∧
  (truthy (Win.maximized win) = false →
     dragging (titlebarMouseDown win rect event (f, s)).1 = true ∧
     dragOffset (titlebarMouseDown win rect event (f, s)).1
       = {| pos_x := clientX event - rect_left rect;
            pos_y := clientY event - rect_top rect |}).
Proof.
  intros Hin Hmin. unfold titlebarMouseDown, startDrag. rewrite Hmin. cbn [orb].
  destruct (truthy (Win.maximized win)); cbn [fst snd].
  - split; [by rewrite bringToFront_focused|]. split; [|done].
    intros u v Hu Hv Hid.
    destruct (bringToFront_raises _ _ _ Hv Hid) as (_ & Hmax & _). by apply Hmax.
  - split; [by rewrite bringToFront_focused by by rewrite ids_bringToFront|].
    split; [|done].
    intros u v Hu Hv Hid.
    destruct (bringToFront_raises _ _ _ Hv Hid) as (_ & Hmax & _). by apply Hmax.
Qed.

Lemma X14_titlebar_press_witness :
  let fs := titlebarMouseDown maximized_chat {| rect_left := 0; rect_top := 0 |}
              {| clientX := 30; clientY := 10 |} (frame0, maximized_window) in
  activeWindowId (autoFocus fs.2) = Some "chat-1" ∧ fs.1 = frame0.
Proof.
  intros fs.
  destruct (X14_titlebar_press maximized_chat {| rect_left := 0; rect_top := 0 |}
              {| clientX := 30; clientY := 10 |} frame0 maximized_window)
    as (H1 & _ & H3 & _).
  - apply (bool_decide_unpack _). vm_compute. exact I.
  - reflexivity.
  - split; [exact H1|]. exact (H3 eq_refl).
Defined.

(** ** What a frame renders *)

(** X17. A frame renders something exactly when its record is not
    minimized.  For a maximized record the rendered style does not depend
    on the stored position and size; for a record that is neither
    minimized nor maximized it carries exactly the stored position and
    size, and the resize handle is there. *)
Theorem X17_render_frame (w : Win.t) (px py : Z) (sw sh : Dim) :
  (is_Some (renderFrame w) ↔ Win.minimized w = false) ∧
  (truthy (Win.maximized w) = true →
     renderFrame (Win.with_pos px py (Win.with_size sw sh w)) = renderFrame w) ∧
  (Win.minimized w = false → truthy (Win.maximized w) = false →
     ∃ st, renderFrame w = Some st ∧
           st_translate st = Some (Win.x w, Win.y w) ∧
           st_width st = Px (Win.width w) ∧ st_height st = Px (Win.height w) ∧
           st_resizer st = true).
Proof.
  unfold renderFrame. split; [|split].
  - destruct (Win.minimized w); split; intros H;
      first [done | by destruct H | by eexists].
  - cbn [Win.with_pos Win.with_size Win.minimized Win.maximized Win.zIndex].
    by intros ->.
  - intros -> ->. eexists. by repeat split.
Qed.

Lemma X17_render_frame_witness :
  renderFrame (Win.with_pos 1 2 (Win.with_size (Num 3) (Num 4) maximized_chat))
  = renderFrame maximized_chat.
Proof.
  exact (proj1 (proj2 (X17_render_frame maximized_chat 1 2 (Num 3) (Num 4))) eq_refl).
Defined.

(** * Further properties of the shell *)

(** ** Panels and the per-type table *)

(** X11. The types that have a panel are exactly the types that have an
    entry in the per-type table: a window opened with the fallback title
    and size is a window with an empty body, and no type with its own
    defaults is left without a panel. *)
Theorem X11_panel_iff_defaults (user : option User) (ty : string) :
  is_Some (renderWindowContent user ty) ↔ is_Some (DEFAULT_WINDOWS ty).
Proof.
  unfold renderWindowContent, DEFAULT_WINDOWS.
  repeat match goal with
         | |- context [bool_decide (ty = ?k)] =>
             destruct (decide (ty = k)) as [->|?];
             [vm_compute; split; intros _; eexists; reflexivity
             |rewrite !(bool_decide_eq_false_2 (ty = k)) by done; cbn [orb]]
         end.
  split; intros [? ?]; discriminate.
Qed.

(** ** The label of the taskbar *)

(** X13. The user label of the taskbar is never empty.  It is the name
    when there is a user with a non-empty name; otherwise the e-mail
    address when there is a user with a non-empty address; otherwise the
    word User. *)
Theorem X13_user_label_not_empty (user : option User) :
  ∃ t, userLabel user = Some t ∧ t ≠ "" ∧
       (∀ u n, user = Some u → user_name u = Some n → n ≠ "" → t = n) ∧
       (∀ u e, user = Some u →
               user_name u = None ∨ user_name u = Some "" →
               user_email u = Some e → e ≠ "" → t = e) ∧
       (user = None ∨
        (∃ u, user = Some u ∧
              (user_name u = None ∨ user_name u = Some "") ∧
              (user_email u = None ∨ user_email u = Some "")) →
        t = "User").
Proof.
  unfold userLabel, str_or.
  destruct user as [[[n|] [e|]]|]; simpl; repeat case_bool_decide; subst;
    eexists; (split; [reflexivity|]); (split; [done|]);
    (split; [|split]).
  all: try (intros u n' [= <-] Hn Hne; simpl in Hn; congruence).
  all: try (intros u e' [= <-] [Hn|Hn] He Hne; simpl in Hn, He; congruence).
  all: try (intros [Hu|(u & [= <-] & [Hn|Hn] & [He|He])]; simpl in *; congruence).
Qed.

Lemma X13_user_label_not_empty_witness :
  userLabel (Some {| user_name := Some ""; user_email := Some "ada@example.org" |})
  = Some "ada@example.org".
Proof.
  destruct (X13_user_label_not_empty
              (Some {| user_name := Some ""; user_email := Some "ada@example.org" |}))
    as (t & Ht & _ & _ & He & _).
  rewrite Ht. f_equal.
  exact (He _ _ eq_refl (or_intror eq_refl) eq_refl ltac:(discriminate)).
Defined.

(** ** Logout *)

(** X12. Logout empties the window list, forgets the user, the stored
    token and the Authorization header, and (outside the boot sequence)
    shows the login screen.  It leaves the focused id as it was; all the
    same, the first window opened afterwards is the only record of the
    list and gets the focus, whatever id was left behind. *)
Theorem X12_logout_then_open (a : App) (ty : string) (now : N) :
  windows (host (handleLogout a)) = [] ∧
  activeWindowId (host (handleLogout a)) = activeWindowId (host a) ∧
  autoFocus (host (handleLogout a)) = host (handleLogout a) ∧
  (user (handleLogout a), paperclip_token (handleLogout a), Authorization (handleLogout a))
    = (None, None, None) ∧
  screen (handleLogout a) = (if isLoading a then BootScreen else LoginScreen) ∧
  ids (step (Open ty now) (host (handleLogout a))) = [newId ty now] ∧
  activeWindowId (step (Open ty now) (host (handleLogout a))) = Some (newId ty now).
Proof.
  split; [done|]. split; [done|]. split; [by apply autoFocus_settled; left|].
  split; [done|]. split; [by unfold screen; simpl; destruct (isLoading a)|].
  assert (ids (step (Open ty now) (host (handleLogout a))) = [newId ty now]) as Hids
    by (unfold ids; by rewrite windows_step).
  split; [done|].
  destruct (autoFocus_focus_present (handler (Open ty now) (host (handleLogout a))))
    as (i & Hi & Hin).
  - rewrite windows_autoFocus. simpl. discriminate.
  - fold (step (Open ty now) (host (handleLogout a))) in Hi, Hin.
    rewrite Hids in Hin. apply list_elem_of_singleton in Hin as ->. done.
Qed.

(** ** The order of the taskbar *)

Lemma ids_filter (i : string) (l : list Win.t) :
  map Win.id (filter (λ win, Win.id win ≠ i) l) = filter (λ a, a ≠ i) (map Win.id l).
Proof.
  induction l as [|w l IH]; [done|].
  simpl. destruct (decide (Win.id w = i)) as [Heq|Hne].
  - rewrite !filter_cons_False by (intros H; by apply H). exact IH.
  - rewrite !filter_cons_True by done. simpl. by rewrite IH.
Qed.

(** X15. The taskbar shows the ids in list order, and the operations
    change that order in three ways only: close takes the id out, open of
    a type that is not open yet appends the new id at the end, and every
    other operation (open of an open type included) leaves the ids and
    their order as they are. *)
Theorem X15_taskbar_order (o : Op) (s : State) :
  ids (step o s) =
    match o with
    | Close i => filter (λ a, a ≠ i) (ids s)
    | Open ty now => if bool_decide (ty ∈ types s) then ids s
                     else ids s ++ [newId ty now]
    | _ => ids s
    end.
Proof.
  unfold ids. rewrite windows_step.
  destruct o as [ty now|i|i|i|i|i|i pos|i size]; simpl.
  - destruct (find _ _) as [w0|] eqn:Hfind.
    + rewrite bool_decide_eq_true_2.
      * by apply ids_map_if.
      * apply find_some in Hfind as [Hin Hty].
        apply bool_decide_eq_true in Hty. subst ty.
        apply (list_elem_of_fmap_2 Win.type). by apply list_elem_of_In.
    + rewrite bool_decide_eq_false_2 by by apply find_type_None.
      by rewrite map_app.
  - apply ids_filter.
  - by apply ids_map_if.
  - by apply ids_map_if.
  - rewrite ids_map_if by done. by apply ids_map_if.
  - rewrite ids_map_if by done. by apply ids_map_if.
  - by apply ids_map_if.
  - by apply ids_map_if.
Qed.

(** ** The top of the stacking order *)

Lemma Math_max_le a rest b :
  Math_max a rest ≤ b ↔ a ≤ b ∧ ∀ z, z ∈ rest → z ≤ b.
Proof.
  induction rest as [|z rest IH]; simpl.
  - split; [intros H; split; [done|by intros z Hz; inversion Hz]|by intros [H _]].
  - rewrite Z.max_lub_iff, IH. split.
    + intros (Hz & Ha & Hrest). split; [done|].
      intros z' [->|Hz']%elem_of_cons; [done|by apply Hrest].
    + intros (Ha & Hrest). split; [apply Hrest; left|].
      split; [done|]. intros z' Hz'. apply Hrest. by right.
Qed.

Lemma maxZ_le l b : maxZ l ≤ b ↔ 0 ≤ b ∧ ∀ w, w ∈ l → Win.zIndex w ≤ b.
Proof.
  unfold maxZ. rewrite Math_max_le. split; intros [H0 H]; (split; [done|]).
  - intros w Hw. apply H. rewrite <- (or0_id (Win.zIndex w)).
    by apply (list_elem_of_fmap_2 (λ win, or0 (Win.zIndex win))).
  - intros z (w & -> & Hw)%(list_elem_of_fmap_1 (λ win, or0 (Win.zIndex win))).
    rewrite or0_id. by apply H.
Qed.

Lemma raise_zIndex_upper (P : Win.t → Prop) `{!∀ w, Decision (P w)}
    (g : Win.t → Win.t) (l : list Win.t) (v : Win.t) :
  (∀ w, Win.zIndex (g w) = maxZ l + 1) →
  v ∈ map (λ win, if bool_decide (P win) then g win else win) l →
  Win.zIndex v ≤ maxZ l + 1.
Proof.
  intros Hg (u & -> & Hu)%list_elem_of_fmap.
  case_bool_decide; [rewrite Hg; lia|]. pose proof (maxZ_ge _ _ Hu). lia.
Qed.

Lemma raise_zIndex_lower (P : Win.t → Prop) `{!∀ w, Decision (P w)}
    (g : Win.t → Win.t) (l : list Win.t) (u : Win.t) :
  (∀ w, Win.zIndex (g w) = maxZ l + 1) →
  u ∈ l →
  ∃ v, v ∈ map (λ win, if bool_decide (P win) then g win else win) l ∧
       Win.zIndex u ≤ Win.zIndex v.
Proof.
  intros Hg Hu.
  set (f := λ win, if bool_decide (P win) then g win else win).
  exists (f u). split; [by apply (list_elem_of_fmap_2 f)|].
  unfold f. case_bool_decide; [|done]. rewrite Hg. pose proof (maxZ_ge _ _ Hu). lia.
Qed.

Lemma handler_zIndex_upper o s v :
  v ∈ windows (handler o s) → Win.zIndex v ≤ maxZ (windows s) + 1.
Proof.
  pose proof (maxZ_nonneg (windows s)) as Hm.
  assert (∀ (g : Win.t → Win.t) i,
            (∀ w, Win.zIndex (g w) = Win.zIndex w) →
            v ∈ map (λ win, if bool_decide (Win.id win = i) then g win else win) (windows s) →
            Win.zIndex v ≤ maxZ (windows s) + 1) as Hfields.
  { intros g i Hg (u & -> & Hu)%list_elem_of_fmap.
    pose proof (maxZ_ge _ _ Hu). case_bool_decide; rewrite ?Hg; lia. }
  destruct o as [ty now|i|i|i|i|i|i pos|i size]; simpl.
  - destruct (find _ _).
    + by apply (raise_zIndex_upper (λ win, Win.type win = ty)).
    + intros [Hv| ->%list_elem_of_singleton]%elem_of_app; simpl; [|lia].
      pose proof (maxZ_ge _ _ Hv). lia.
  - intros [_ Hv]%list_elem_of_filter. pose proof (maxZ_ge _ _ Hv). lia.
  - by apply (raise_zIndex_upper (λ win, Win.id win = i)).
  - by apply Hfields.
  - intros Hv. apply (raise_zIndex_upper (λ win, Win.id win = i)) in Hv; [|done].
    rewrite maxZ_map_preserve in Hv by (intros w; by case_bool_decide). done.
  - intros Hv. apply (raise_zIndex_upper (λ win, Win.id win = i)) in Hv; [|done].
    rewrite maxZ_map_preserve in Hv by (intros w; by case_bool_decide). done.
  - by apply Hfields.
  - by apply Hfields.
Qed.

Lemma handler_zIndex_lower o s u :
  (∀ i, o ≠ Close i) → u ∈ windows s →
  ∃ v, v ∈ windows (handler o s) ∧ Win.zIndex u ≤ Win.zIndex v.
Proof.
  intros Hclose Hu.
  assert (∀ (g : Win.t → Win.t) i,
            (∀ w, Win.zIndex (g w) = Win.zIndex w) →
            ∃ v, v ∈ map (λ win, if bool_decide (Win.id win = i) then g win else win)
                       (windows s) ∧ Win.zIndex u ≤ Win.zIndex v) as Hfields.
  { intros g i Hg.
    set (f := λ win, if bool_decide (Win.id win = i) then g win else win).
    exists (f u). split; [by apply (list_elem_of_fmap_2 f)|].
    unfold f. case_bool_decide; rewrite ?Hg; lia. }
  destruct o as [ty now|i|i|i|i|i|i pos|i size]; simpl.
  - destruct (find _ _).
    + by apply (raise_zIndex_lower (λ win, Win.type win = ty)).
    + exists u. split; [apply elem_of_app; by left|lia].
  - by destruct (Hclose i).
  - by apply (raise_zIndex_lower (λ win, Win.id win = i)).
  - by apply Hfields.
  - destruct (Hfields (λ win, Win.with_minimized false
                         (Win.with_maximized (negb (truthy (Win.maximized win))) win)) i)
      as (u1 & Hu1 & Hle1); [done|].
    match type of Hu1 with _ ∈ ?l => set (l1 := l) in * end.
    destruct (raise_zIndex_lower (λ win, Win.id win = i)
                (Win.with_zIndex (maxZ l1 + 1)) l1 u1) as (v & Hv & Hle); [done|done|].
    exists v. split; [done|lia].
  - destruct (Hfields (Win.with_minimized false) i) as (u1 & Hu1 & Hle1); [done|].
    match type of Hu1 with _ ∈ ?l => set (l1 := l) in * end.
    destruct (raise_zIndex_lower (λ win, Win.id win = i)
                (Win.with_zIndex (maxZ l1 + 1)) l1 u1) as (v & Hv & Hle); [done|done|].
    exists v. split; [done|lia].
  - by apply Hfields.
  - by apply Hfields.
Qed.

(** X16. No operation raises the greatest zIndex of the list by more
    than one, only close can lower it, and open raises it by exactly
    one: zIndexes are handed out in increasing order and never reused
    while the window that holds the greatest one stays open. *)
Theorem X16_top_of_stack_monotone (o : Op) (s : State) :
  maxZ (windows (step o s)) ≤ maxZ (windows s) + 1 ∧
  ((∀ i, o ≠ Close i) → maxZ (windows s) ≤ maxZ (windows (step o s))) ∧
  (∀ ty now, o = Open ty now → maxZ (windows (step o s)) = maxZ (windows s) + 1).
Proof.
  rewrite windows_step. pose proof (maxZ_nonneg (windows s)) as Hm.
  assert (maxZ (windows (handler o s)) ≤ maxZ (windows s) + 1) as Hup.
  { apply maxZ_le. split; [lia|]. intros v Hv. by apply (handler_zIndex_upper o). }
  split; [done|]. split.
  - intros Hclose. apply maxZ_le. split; [apply maxZ_nonneg|].
    intros u Hu. destruct (handler_zIndex_lower o s u Hclose Hu) as (v & Hv & Hle).
    pose proof (maxZ_ge _ _ Hv). lia.
  - intros ty now ->. apply Z.le_antisymm; [done|].
    assert (∃ v, v ∈ windows (handler (Open ty now) s) ∧
                 Win.zIndex v = maxZ (windows s) + 1) as (v & Hv & Hz).
    { simpl. destruct (find _ _) as [w0|] eqn:Hfind.
      - apply find_some in Hfind as [Hin Hty]. apply list_elem_of_In in Hin.
        eexists. split; [by apply list_elem_of_fmap_2|].
        simpl. by rewrite Hty.
      - eexists. split; [apply elem_of_app; right; apply list_elem_of_here|done]. }
    rewrite <- Hz. by apply maxZ_ge.
Qed.

Lemma X16_top_of_stack_monotone_witness :
  maxZ (windows two_windows) ≤ maxZ (windows (step (Focus "chat-1") two_windows)).
Proof.
  refine (proj1 (proj2 (X16_top_of_stack_monotone (Focus "chat-1") two_windows)) _).
  discriminate.
Defined.

Lemma X11_panel_iff_defaults_witness :
  is_Some (renderWindowContent None "generate_code") ∧
  ¬ is_Some (DEFAULT_WINDOWS "notes").
Proof.
  split.
  - apply (proj2 (X11_panel_iff_defaults None "generate_code")). by eexists.
  - intros H. apply (proj2 (X11_panel_iff_defaults None "notes")) in H.
    destruct H as [p Hp]. vm_compute in Hp. discriminate.
Defined.

(** ** Closing every window *)

Lemma filter_ne_absent (i : string) (l : list string) :
  i ∉ l → filter (λ a, a ≠ i) l = l.
Proof.
  induction l as [|a l IH]; [done|].
  intros Habs. rewrite filter_cons_True.
  - f_equal. apply IH. intros Hin. apply Habs. by right.
  - intros <-. apply Habs. left.
Qed.

Lemma close_all_aux (n : nat) (s : State) :
  length (windows s) = n →
  NoDup (ids s) →
  (∃ i, activeWindowId s = Some i ∧ i ∈ ids s) →
  run (map Close (ids s)) s = init.
Proof.
  revert s. induction n as [|n IH]; intros s Hlen Hnd (a & Hact & Hin).
  { destruct (windows s) eqn:Hw; [|done].
    unfold ids in Hin. rewrite Hw in Hin. inversion Hin. }
  destruct (ids s) as [|i rest] eqn:Hids; [inversion Hin|].
  apply NoDup_cons in Hnd as [Hi Hnd].
  cbn [map run foldl]. fold (run (map Close rest) (step (Close i) s)).
  assert (ids (step (Close i) s) = rest) as Hids'.
  { unfold ids. rewrite windows_step. simpl. rewrite ids_filter.
    fold (ids s). rewrite Hids.
    rewrite filter_cons_False by (intros H; by apply H).
    by apply filter_ne_absent. }
  destruct rest as [|j rest'].
  - assert (a = i) as -> by (by apply list_elem_of_singleton in Hin).
    assert (windows (handler (Close i) s) = []) as Hnil.
    { apply (fmap_nil_inv Win.id). fold (ids (handler (Close i) s)).
      unfold ids in Hids' |- *. by rewrite windows_step in Hids'. }
    unfold step. rewrite autoFocus_settled by by left.
    simpl in Hnil |- *. unfold closeWindow, setActiveWindowId, setWindows. simpl.
    rewrite Hnil, Hact. by rewrite bool_decide_eq_true_2.
  - rewrite <- Hids'. apply IH.
    + assert (length (ids s) = S n) as Hl by (unfold ids; by rewrite length_map).
      assert (length (ids (step (Close i) s)) = length (j :: rest')) as Hl'
        by by rewrite Hids'.
      rewrite Hids in Hl. unfold ids in Hl'. rewrite length_map in Hl'.
      simpl in Hl, Hl'. lia.
    + by rewrite Hids'.
    + apply autoFocus_focus_present. intros Hnil.
      unfold ids in Hids'. unfold step in Hids'. by rewrite Hnil in Hids'.
Qed.

(** X18. On a desktop reached from the empty one with at least one
    window open, closing the windows one after the other, in taskbar
    order, gives back the initial state: an empty list and no focused
    id. *)
Theorem X18_close_all_gives_init (ops : list Op) :
  windows (run ops init) ≠ [] →
  run (map Close (ids (run ops init))) (run ops init) = init.
Proof.
  intros Hne. apply (close_all_aux (length (windows (run ops init)))); [done| |].
  - apply well_formed_ids, reachable_well_formed. by exists ops.
  - destruct ops as [|o ops _] using rev_ind; [done|].
    unfold run in *. rewrite foldl_app in *. simpl in *.
    by apply autoFocus_focus_present.
Qed.

Lemma X18_close_all_gives_init_witness :
  run [Close "chat-1"; Close "research-2"] two_windows = init.
Proof.
  refine (X18_close_all_gives_init [Open "chat" 1%N; Open "research" 2%N] _).
  vm_compute. discriminate.
Defined.
